(** * domain-mcp: the dual-signal reconciliation engine

    A shallow embedding of [dist/domain-checker.js] (the build that is
    shipped; [src/domain-checker.ts] is the same engine without probe
    timeouts and without the pause between batches, see [Module TsSource]).

    Strings are JavaScript strings restricted to code units below 256
    (the Latin-1 range), so that [String.string] represents them one code
    unit per character.  The network is an explicit argument: what the
    DNS resolver and the WHOIS client answer is data handed to the
    probes.

    [Module Mcp] embeds the tool server of [src/index.ts] and
    [Module Cli] the command line of [src/cli.ts], both on top of the
    engine. *)

From Stdlib Require Import String Ascii List ZArith Lia Bool Sorted Permutation.
Import ListNotations.

Local Open Scope string_scope.
Local Open Scope list_scope.

Set Implicit Arguments.

(** ** Exceptions *)

(** A JavaScript call either returns a value or throws an [Error] with a
    message. *)
Inductive result (A : Type) : Type :=
| Ok (a : A)
| Throw (message : string).

Arguments Ok {A} a.
Arguments Throw {A} message.

Definition bind {A B} (r : result A) (k : A -> result B) : result B :=
  match r with
  | Ok a => k a
  | Throw m => Throw m
  end.

Notation "x <- r ;; k" := (bind r (fun x => k))
  (at level 61, r at next level, right associativity).

(** ** String built-ins used by the engine *)

Module JsString.

Definition codeUnit (c : ascii) : nat := nat_of_ascii c.

(** [WhiteSpace] and [LineTerminator] code units below 256: TAB, LF, VT,
    FF, CR, SP and NBSP.  This is what [trim] strips and what the
    regular-expression class [\s] accepts. *)
Definition isWhiteSpace (c : ascii) : bool :=
  match codeUnit c with
  | 9 | 10 | 11 | 12 | 13 | 32 | 160 => true
  | _ => false
  end.

(** [LineTerminator] code units below 256: LF and CR. *)
Definition isLineTerminator (c : ascii) : bool :=
  match codeUnit c with
  | 10 | 13 => true
  | _ => false
  end.

(** [toLowerCase] on one code unit: A-Z, and the Latin-1 capitals
    U+00C0..U+00DE except the multiplication sign U+00D7. *)
Definition lowerUnit (c : ascii) : ascii :=
  let n := codeUnit c in
  if (((65 <=? n) && (n <=? 90))
      || ((192 <=? n) && (n <=? 222) && negb (n =? 215)))%nat
  then ascii_of_nat (n + 32)
  else c.

Fixpoint toLowerCase (s : string) : string :=
  match s with
  | EmptyString => EmptyString
  | String c s' => String (lowerUnit c) (toLowerCase s')
  end.

Fixpoint trimStart (s : string) : string :=
  match s with
  | EmptyString => EmptyString
  | String c s' => if isWhiteSpace c then trimStart s' else s
  end.

Fixpoint trimEnd (s : string) : string :=
  match s with
  | EmptyString => EmptyString
  | String c s' =>
      match trimEnd s' with
      | EmptyString => if isWhiteSpace c then EmptyString else String c EmptyString
      | t => String c t
      end
  end.

Definition trim (s : string) : string := trimEnd (trimStart s).

(** [s.split(sep)] for a one-character separator: never empty, the
    empty string splits into one empty part. *)
Fixpoint split (sep : ascii) (s : string) : list string :=
  match s with
  | EmptyString => [EmptyString]
  | String c s' =>
      if Ascii.eqb c sep then EmptyString :: split sep s'
      else match split sep s' with
           | [] => [String c EmptyString]
           | p :: ps => String c p :: ps
           end
  end.

(** [parts.join(sep)]. *)
Fixpoint join (sep : string) (parts : list string) : string :=
  match parts with
  | [] => EmptyString
  | [p] => p
  | p :: ps => p ++ sep ++ join sep ps
  end.

(** [s.includes(c)] for a one-character needle. *)
Fixpoint includes (c : ascii) (s : string) : bool :=
  match s with
  | EmptyString => false
  | String x s' => Ascii.eqb x c || includes c s'
  end.

(** [hay.includes(needle)] for an arbitrary needle. *)
Fixpoint includesStr (needle hay : string) : bool :=
  prefix needle hay ||
  match hay with
  | EmptyString => false
  | String _ hay' => includesStr needle hay'
  end.

End JsString.

Import JsString.

(** ** parseDomain *)

Record ParsedDomain := { parsedName : string; parsedTld : string }.

Definition dot : ascii := "."%char.

Definition parseDomain (domain : string) : result ParsedDomain :=
  let parts := split dot (trim (toLowerCase domain)) in
  if (List.length parts <? 2)%nat then
    Throw ("Invalid domain format: " ++ domain ++ ". Expected format: name.tld")
  else
    (* parts.pop() takes the last part off; the rest is joined again *)
    let tld := last parts EmptyString in
    let name := join "." (removelast parts) in
    Ok {| parsedName := name; parsedTld := tld |}.

(** ** Regular expressions of the WHOIS classifier *)

Module Regex.

(** The patterns of [checkWhois] are sequences of literal characters,
    [\s*], [.+] and the anchors [^] and [$]. *)
Inductive charClass := ClsSpace | ClsAny.

Inductive atom :=
| Lit (c : ascii)
| Star (cls : charClass)
| Plus (cls : charClass)
| Bol
| Eol.

Record regex := {
  atoms : list atom;
  ignoreCase : bool;   (* flag i *)
  multiline : bool     (* flag m *)
}.

Fixpoint lits (s : string) : list atom :=
  match s with
  | EmptyString => []
  | String c s' => Lit c :: lits s'
  end.

(** [Canonicalize] of a code unit below 256 under flag [i] (no flag
    [u]): the code unit of its upper case when that is one code unit and
    does not fall back into ASCII from outside of it.  The result can
    leave the Latin-1 range, hence a number. *)
Definition canonicalize (c : ascii) : nat :=
  let n := codeUnit c in
  if ((97 <=? n) && (n <=? 122))%nat then n - 32
  else if ((224 <=? n) && (n <=? 254) && negb (n =? 247))%nat then n - 32
  else if (n =? 255)%nat then 376
  else if (n =? 181)%nat then 924
  else n.

Definition charMatches (ic : bool) (p x : ascii) : bool :=
  if ic then (canonicalize p =? canonicalize x)%nat else Ascii.eqb p x.

Definition inClass (cls : charClass) (x : ascii) : bool :=
  match cls with
  | ClsSpace => isWhiteSpace x
  | ClsAny => negb (isLineTerminator x)
  end.

Definition atLineStart (ml : bool) (prev : option ascii) : bool :=
  match prev with
  | None => true
  | Some c => ml && isLineTerminator c
  end.

Definition atLineEnd (ml : bool) (rest : string) : bool :=
  match rest with
  | EmptyString => true
  | String c _ => ml && isLineTerminator c
  end.

(** Backtracking match of the atoms at the current position; [prev] is
    the character just before it. *)
Fixpoint matchHere (ic ml : bool) (p : list atom)
  : option ascii -> string -> bool :=
  match p with
  | [] => fun _ _ => true
  | a :: p' =>
      let k := matchHere ic ml p' in
      let star cls :=
        fix star (prev : option ascii) (s : string) {struct s} : bool :=
          k prev s ||
          match s with
          | EmptyString => false
          | String x s' => inClass cls x && star (Some x) s'
          end in
      match a with
      | Lit c => fun _ s =>
          match s with
          | EmptyString => false
          | String x s' => charMatches ic c x && k (Some x) s'
          end
      | Star cls => star cls
      | Plus cls => fun _ s =>
          match s with
          | EmptyString => false
          | String x s' => inClass cls x && star cls (Some x) s'
          end
      | Bol => fun prev s => atLineStart ml prev && k prev s
      | Eol => fun prev s => atLineEnd ml s && k prev s
      end
  end.

Fixpoint search (r : regex) (prev : option ascii) (s : string) : bool :=
  matchHere (ignoreCase r) (multiline r) (atoms r) prev s ||
  match s with
  | EmptyString => false
  | String x s' => search r (Some x) s'
  end.

(** [pattern.test(s)]. *)
Definition test (r : regex) (s : string) : bool := search r None s.

(** [/.../i] and [/.../im]. *)
Definition re_i (a : list atom) : regex :=
  {| atoms := a; ignoreCase := true; multiline := false |}.
Definition re_im (a : list atom) : regex :=
  {| atoms := a; ignoreCase := true; multiline := true |}.

End Regex.

Import Regex.

(** ** Promises and the network *)

Record JsError := { code : option string; message : string }.

(** [new Error(msg)] *)
Definition newError (msg : string) : JsError :=
  {| code := None; message := msg |}.

Inductive settlement (A : Type) : Type :=
| Fulfilled (a : A)
| Rejected (e : JsError).

Arguments Fulfilled {A} a.
Arguments Rejected {A} e.

(** What becomes of an asynchronous operation: it settles some
    milliseconds after it was started, or never. *)
Inductive promise (A : Type) : Type :=
| SettlesAt (ms : Z) (s : settlement A)
| NeverSettles.

Arguments SettlesAt {A} ms s.
Arguments NeverSettles {A}.

(** [withTimeout(promise, ms, errorMsg)]: the race of the operation with
    a timer that rejects after [ms]; the timer wins a tie. *)
Definition withTimeout {A} (p : promise A) (ms : Z) (errorMsg : string)
  : settlement A :=
  match p with
  | SettlesAt t s => if (t <? ms)%Z then s else Rejected (newError errorMsg)
  | NeverSettles => Rejected (newError errorMsg)
  end.

(** The two services the probes call, for one domain check. *)
Record Net := {
  dnsResolve : string -> promise (list string);   (* dns.resolve(domain, "A") *)
  lookupAsync : string -> promise string          (* whois.lookup(domain) *)
}.

(** ** Configuration *)

Definition WHOIS_TIMEOUT_MS : Z := 10000.
Definition DNS_TIMEOUT_MS : Z := 5000.
Definition BATCH_DELAY_MS : Z := 1500.
Definition DEFAULT_CONCURRENCY : Z := 3.

Definition POPULAR_TLDS : list string :=
  ["com"; "net"; "org"; "io"; "co"; "dev"; "app"; "ai"; "xyz"; "me"; "info";
   "biz"; "tech"; "online"; "site"; "cloud"].

Definition COUNTRY_TLDS : list string :=
  ["uk"; "de"; "fr"; "nl"; "es"; "it"; "pl"; "ru"; "jp"; "cn"; "au"; "ca";
   "us"; "in"; "br"].

Definition TECH_TLDS : list string :=
  ["io"; "dev"; "app"; "ai"; "tech"; "cloud"; "software"; "systems";
   "digital"; "code"].

(** ** The probes *)

Record DnsResult := { dnsExists : bool; dnsError : option string }.

Record WhoisResult := {
  whoisAvailable : bool;
  whoisDetails : option string;
  whoisError : option string
}.

(** Truthiness of an optional string, as [if (r.error)] tests it: absent
    and the empty string are both falsy. *)
Definition truthy (e : option string) : bool :=
  match e with
  | None => false
  | Some s => negb (String.eqb s EmptyString)
  end.

Definition codeIs (e : JsError) (c : string) : bool :=
  match code e with
  | Some c' => String.eqb c' c
  | None => false
  end.

Definition checkDns (net : Net) (domain : string) : DnsResult :=
  match withTimeout (dnsResolve net domain) DNS_TIMEOUT_MS "DNS lookup timed out" with
  | Fulfilled _ => {| dnsExists := true; dnsError := None |}
  | Rejected error =>
      if codeIs error "ENOTFOUND" || codeIs error "ENODATA" then
        {| dnsExists := false; dnsError := None |}
      else if String.eqb (message error) "DNS lookup timed out" then
        {| dnsExists := false; dnsError := Some "timeout" |}
      else
        {| dnsExists := false; dnsError := Some (message error) |}
  end.

Definition availablePatterns : list regex :=
  [ re_i (lits "no match");
    re_i (lits "not found");
    re_i (lits "no data found");
    re_i (lits "no entries found");
    re_i (lits "status:" ++ [Star ClsSpace] ++ lits "free");
    re_i (lits "status:" ++ [Star ClsSpace] ++ lits "available");
    re_i (lits "domain not found");
    re_i (lits "no object found");
    re_i (lits "nothing found");
    re_im ([Bol] ++ lits "% no match" ++ [Eol]) ].

Definition takenPatterns : list regex :=
  [ re_i (lits "domain name:" ++ [Star ClsSpace; Plus ClsAny]);
    re_i (lits "registrar:");
    re_i (lits "creation date:");
    re_i (lits "registered on:");
    re_i (lits "status:" ++ [Star ClsSpace] ++ lits "active");
    re_i (lits "status:" ++ [Star ClsSpace] ++ lits "ok");
    re_i (lits "name server:");
    re_i (lits "registrant:") ].

(** [patterns.some((pattern) => pattern.test(whoisData))] *)
Definition some (patterns : list regex) (whoisData : string) : bool :=
  existsb (fun pattern => test pattern whoisData) patterns.

(** The [try] block of [checkWhois], on the text the lookup returned. *)
Definition classifyWhois (whoisData : string) : WhoisResult :=
  let isAvailable := some availablePatterns whoisData in
  let isTaken := some takenPatterns whoisData in
  if isAvailable && negb isTaken then
    {| whoisAvailable := true;
       whoisDetails := Some "WHOIS shows domain is not registered";
       whoisError := None |}
  else if isTaken then
    {| whoisAvailable := false;
       whoisDetails := Some "WHOIS shows domain is registered";
       whoisError := None |}
  else
    {| whoisAvailable := false;
       whoisDetails := Some "WHOIS result ambiguous, assuming taken";
       whoisError := None |}.

Definition checkWhois (net : Net) (domain : string) : WhoisResult :=
  match withTimeout (lookupAsync net domain) WHOIS_TIMEOUT_MS "WHOIS lookup timed out" with
  | Fulfilled whoisData => classifyWhois whoisData
  | Rejected error =>
      {| whoisAvailable := false; whoisDetails := None;
         whoisError := Some (message error) |}
  end.

(** ** checkDomain *)

Inductive Method := dns | whois | both.
Inductive Confidence := high | medium | low.

Record DomainCheckResult := {
  domain : string;
  tld : string;
  available : bool;
  method : Method;
  confidence : Confidence;
  details : option string;
  error : option string
}.

(** The text a template literal puts for an optional string. *)
Definition show (e : option string) : string :=
  match e with
  | Some s => s
  | None => "undefined"
  end.

(** The part of [checkDomain] after both probes were awaited: the merge
    of the two probe results into the verdict. *)
Definition reconcile (fullDomain tld : string)
    (dnsResult : DnsResult) (whoisResult : WhoisResult) : DomainCheckResult :=
  if truthy (dnsError dnsResult) && truthy (whoisError whoisResult) then
    (* Both methods failed *)
    {| domain := fullDomain; tld := tld; available := false;
       method := both; confidence := low;
       details := Some "Both DNS and WHOIS checks failed";
       error := Some ("DNS: " ++ show (dnsError dnsResult) ++
                      ", WHOIS: " ++ show (whoisError whoisResult))%string |}
  else
    let '(available, (confidence, (method, details))) :=
      if negb (truthy (dnsError dnsResult)) && negb (truthy (whoisError whoisResult)) then
        (* Both methods succeeded *)
        if negb (dnsExists dnsResult) && whoisAvailable whoisResult then
          (true, (high, (both, Some "No DNS records and WHOIS shows available")))
        else if dnsExists dnsResult && negb (whoisAvailable whoisResult) then
          (false, (high, (both, Some "DNS records exist and WHOIS shows registered")))
        else if dnsExists dnsResult then
          (false, (high, (both, Some "DNS records exist (domain is active)")))
        else if negb (whoisAvailable whoisResult) then
          (false, (medium, (both,
             Some "No DNS but WHOIS shows registered (domain may be parked)")))
        else
          (true, (medium, (both, whoisDetails whoisResult)))
      else if truthy (dnsError dnsResult) then
        (* Only WHOIS worked *)
        (whoisAvailable whoisResult, (medium, (whois, whoisDetails whoisResult)))
      else
        (* Only DNS worked *)
        (negb (dnsExists dnsResult),
         ((if dnsExists dnsResult then high else medium),
          (dns,
           Some (if dnsExists dnsResult then "DNS records exist"
                 else "No DNS records found (may still be registered but inactive)"))))
    in
    {| domain := fullDomain; tld := tld; available := available;
       method := method; confidence := confidence; details := details;
       error := None |}.

Definition checkDomain (net : Net) (domain : string) : result DomainCheckResult :=
  p <- parseDomain domain ;;
  let fullDomain := (parsedName p ++ "." ++ parsedTld p)%string in
  let dnsResult := checkDns net fullDomain in
  let whoisResult := checkWhois net fullDomain in
  Ok (reconcile fullDomain (parsedTld p) dnsResult whoisResult).

(** ** checkAlternativeTlds *)

Record AlternativeTldResult := {
  originalDomain : string;
  results : list DomainCheckResult
}.

Record Options := { concurrency : option Z; batchDelay : option Z }.

(** What the batch loop does that an observer can see. *)
Inductive Event :=
| Window (batch : list string)   (* one Promise.all over a slice of the TLDs *)
| Sleep (ms : Z).                (* await sleep(ms) *)

(** The network as the [k]-th started domain check finds it. *)
Definition World := nat -> Net.

(** [Array.prototype.slice(start, end)] on integers: negative indices
    count from the end, everything is clamped to the array. *)
Definition relativeIndex (len k : Z) : Z :=
  if (k <? 0)%Z then Z.max (len + k) 0 else Z.min k len.

Definition slice {A} (l : list A) (start finish : Z) : list A :=
  let len := Z.of_nat (List.length l) in
  let k := relativeIndex len start in
  let final := relativeIndex len finish in
  firstn (Z.to_nat (final - k)) (skipn (Z.to_nat k) l).

(** [l.map(f)] where the [j]-th call is the [start + j]-th of the run. *)
Fixpoint mapFrom {A B} (f : nat -> A -> B) (start : nat) (l : list A) : list B :=
  match l with
  | [] => []
  | a :: l' => f start a :: mapFrom f (S start) l'
  end.

(** [await Promise.all(...)]: the values in order, or the first throw. *)
Fixpoint promiseAll {A} (l : list (result A)) : result (list A) :=
  match l with
  | [] => Ok []
  | r :: l' => a <- r ;; rest <- promiseAll l' ;; Ok (a :: rest)
  end.

Section Batch.

Variable world : World.
Variable name : string.
Variable tlds : list string.
Variable concurrency' batchDelay' : Z.

(** The [for] loop from its index [i] on, with the results and the
    events so far.  [None]: the loop has not ended within [fuel]
    iterations. *)
Fixpoint batchLoop (fuel : nat) (i : Z)
    (results : list DomainCheckResult) (log : list Event)
  : option (result (list DomainCheckResult * list Event)) :=
  match fuel with
  | O => None
  | S fuel' =>
      if (i <? Z.of_nat (List.length tlds))%Z then
        let batch := slice tlds i (i + concurrency') in
        match promiseAll
                (mapFrom (fun k tld => checkDomain (world k) (name ++ "." ++ tld))
                         (List.length results) batch) with
        | Throw m => Some (Throw m)
        | Ok batchResults =>
            let results := results ++ batchResults in
            let log := log ++ [Window batch] in
            (* Add delay between batches (except after the last batch) *)
            let log :=
              if (i + concurrency' <? Z.of_nat (List.length tlds))%Z
              then log ++ [Sleep batchDelay'] else log in
            batchLoop fuel' (i + concurrency') results log
        end
      else Some (Ok (results, log))
  end.

End Batch.

Definition orDefault {A} (o : option A) (d : A) : A :=
  match o with Some a => a | None => d end.

Definition checkAlternativeTlds (fuel : nat) (world : World)
    (domainName : string) (tlds : option (list string)) (options : Options)
  : option (result (AlternativeTldResult * list Event)) :=
  let tlds := orDefault tlds POPULAR_TLDS in
  let concurrency := orDefault (concurrency options) DEFAULT_CONCURRENCY in
  let batchDelay := orDefault (batchDelay options) BATCH_DELAY_MS in
  match (if includes dot domainName
         then p <- parseDomain domainName ;; Ok (parsedName p)
         else Ok domainName) with
  | Throw m => Some (Throw m)
  | Ok name =>
      match batchLoop world name tlds concurrency batchDelay fuel 0 [] [] with
      | None => None
      | Some (Throw m) => Some (Throw m)
      | Some (Ok (results, log)) =>
          Some (Ok ({| originalDomain := name; results := results |}, log))
      end
  end.

Definition defaultOptions : Options :=
  {| concurrency := None; batchDelay := None |}.

(** ** getSuggestedTlds *)

(** [[...new Set(l)]]: the first occurrence of every element, in order. *)
Definition setOf (l : list string) : list string :=
  fold_left
    (fun seen x => if existsb (String.eqb x) seen then seen else seen ++ [x])
    l [].

Definition getSuggestedTlds (purpose : option string) : list string :=
  let purpose := orDefault purpose "general" in
  if String.eqb purpose "tech" then TECH_TLDS
  else if String.eqb purpose "country" then COUNTRY_TLDS
  else if String.eqb purpose "all" then
    setOf (POPULAR_TLDS ++ TECH_TLDS ++ COUNTRY_TLDS)
  else POPULAR_TLDS.

(** ** The TypeScript source

    [src/domain-checker.ts] has the same [parseDomain], the same WHOIS
    patterns and the same merge of the probe results, but its probes
    await the lookups without a timer, its default window is 5 and its
    batch loop does not pause.  [None] stands for an [await] that never
    comes back. *)

Module TsSource.

Definition await {A} (p : promise A) : option (settlement A) :=
  match p with
  | SettlesAt _ s => Some s
  | NeverSettles => None
  end.

Definition checkDns (net : Net) (domain : string) : option DnsResult :=
  match await (dnsResolve net domain) with
  | None => None
  | Some (Fulfilled _) => Some {| dnsExists := true; dnsError := None |}
  | Some (Rejected error) =>
      if codeIs error "ENOTFOUND" || codeIs error "ENODATA" then
        Some {| dnsExists := false; dnsError := None |}
      else
        Some {| dnsExists := false; dnsError := Some (message error) |}
  end.

Definition checkWhois (net : Net) (domain : string) : option WhoisResult :=
  match await (lookupAsync net domain) with
  | None => None
  | Some (Fulfilled whoisData) => Some (classifyWhois whoisData)
  | Some (Rejected error) =>
      Some {| whoisAvailable := false; whoisDetails := None;
              whoisError := Some (message error) |}
  end.

Definition checkDomain (net : Net) (domain : string)
  : option (result DomainCheckResult) :=
  match parseDomain domain with
  | Throw m => Some (Throw m)
  | Ok p =>
      let fullDomain := (parsedName p ++ "." ++ parsedTld p)%string in
      match checkDns net fullDomain, checkWhois net fullDomain with
      | Some dnsResult, Some whoisResult =>
          Some (Ok (reconcile fullDomain (parsedTld p) dnsResult whoisResult))
      | _, _ => None
      end
  end.

(** [Promise.all] over checks of which some may never come back. *)
Fixpoint promiseAll {A} (l : list (option (result A))) : option (result (list A)) :=
  match l with
  | [] => Some (Ok [])
  | r :: l' =>
      match r, promiseAll l' with
      | Some (Throw m), _ => Some (Throw m)
      | Some (Ok _), Some (Throw m) => Some (Throw m)
      | Some (Ok a), Some (Ok rest) => Some (Ok (a :: rest))
      | _, _ => None
      end
  end.

Fixpoint batchLoop (world : World) (name : string) (tlds : list string)
    (concurrency' : Z) (fuel : nat) (i : Z)
    (results : list DomainCheckResult) (log : list Event)
  : option (result (list DomainCheckResult * list Event)) :=
  match fuel with
  | O => None
  | S fuel' =>
      if (i <? Z.of_nat (List.length tlds))%Z then
        let batch := slice tlds i (i + concurrency') in
        match promiseAll
                (mapFrom (fun k tld => checkDomain (world k) (name ++ "." ++ tld))
                         (List.length results) batch) with
        | None => None
        | Some (Throw m) => Some (Throw m)
        | Some (Ok batchResults) =>
            batchLoop world name tlds concurrency' fuel' (i + concurrency')
              (results ++ batchResults) (log ++ [Window batch])
        end
      else Some (Ok (results, log))
  end.

Definition checkAlternativeTlds (fuel : nat) (world : World)
    (domainName : string) (tlds : option (list string)) (concurrency : option Z)
  : option (result (AlternativeTldResult * list Event)) :=
  let tlds := orDefault tlds POPULAR_TLDS in
  let concurrency := orDefault concurrency 5%Z in
  match (if includes dot domainName
         then p <- parseDomain domainName ;; Ok (parsedName p)
         else Ok domainName) with
  | Throw m => Some (Throw m)
  | Ok name =>
      match batchLoop world name tlds concurrency fuel 0 [] [] with
      | None => None
      | Some (Throw m) => Some (Throw m)
      | Some (Ok (results, log)) =>
          Some (Ok ({| originalDomain := name; results := results |}, log))
      end
  end.

End TsSource.

(** The projections of the engine's records under names that stay
    visible where the tool server has fields of the same name. *)
Definition resultsOf (r : AlternativeTldResult) : list DomainCheckResult := results r.
Definition originalDomainOf (r : AlternativeTldResult) : string := originalDomain r.
Definition isAvailable (r : DomainCheckResult) : bool := available r.

(** ** The tool server ([src/index.ts])

    The handler of tool calls, up to the object that it hands to
    [JSON.stringify]: a response holds that object, or the text of an
    error.  Arguments are as the input schemas describe them. *)

Module Mcp.

(** The characters a-z and 0-9: what [replace(/[^a-z0-9]/g, ...)] keeps
    when it replaces by the empty string. *)
Definition isLowerAlnum (c : ascii) : bool :=
  let n := codeUnit c in
  (((97 <=? n) && (n <=? 122)) || ((48 <=? n) && (n <=? 57)))%nat.

Fixpoint keepLowerAlnum (s : string) : string :=
  match s with
  | EmptyString => EmptyString
  | String c s' =>
      if isLowerAlnum c then String c (keepLowerAlnum s') else keepLowerAlnum s'
  end.

Definition prefixes : list string := ["get"; "try"; "use"; "my"; "the"; "go"].
Definition suffixes : list string := ["app"; "hq"; "io"; "hub"; "labs"; "now"].

Definition generateVariations (keyword : string) : list string :=
  let base := keepLowerAlnum (toLowerCase keyword) in
  let variations := [base] in
  let variations := variations ++ map (fun p => (p ++ base)%string) prefixes in
  let variations := variations ++ map (fun s => (base ++ s)%string) suffixes in
  setOf variations.

Record ToolArgs := {
  argDomain : option string;
  argName : option string;
  argTlds : option (list string);
  argCategory : option string;
  argKeyword : option string;
  argIncludeVariations : option bool
}.

(** [(x as string) || fallback] *)
Definition orElse (x : option string) (fallback : string) : string :=
  if truthy x then show x else fallback.

(** The comparator of [suggest_domains]: confidence first, then the
    length of the domain. *)
Definition order (c : Confidence) : Z :=
  match c with
  | high => 0
  | medium => 1
  | low => 2
  end.

Definition sameConfidence (a b : Confidence) : bool :=
  match a, b with
  | high, high | medium, medium | low, low => true
  | _, _ => false
  end.

Definition compareSuggestions (a b : DomainCheckResult) : Z :=
  if negb (sameConfidence (confidence a) (confidence b)) then
    (order (confidence a) - order (confidence b))%Z
  else
    (Z.of_nat (String.length (domain a)) - Z.of_nat (String.length (domain b)))%Z.

(** [Array.prototype.sort(cmp)]: a stable sort; an element goes in front
    of the first one it is not greater than. *)
Fixpoint insertSorted {A} (cmp : A -> A -> Z) (x : A) (l : list A) : list A :=
  match l with
  | [] => [x]
  | y :: l' => if (cmp x y <=? 0)%Z then x :: l else y :: insertSorted cmp x l'
  end.

Fixpoint sort {A} (cmp : A -> A -> Z) (l : list A) : list A :=
  match l with
  | [] => []
  | x :: l' => insertSorted cmp x (sort cmp l')
  end.

Record AlternativesSummary := {
  originalDomain : string;
  totalChecked : nat;
  availableCount : nat;
  takenCount : nat;
  available : list DomainCheckResult;
  taken : list DomainCheckResult
}.

Record SuggestSummary := {
  keyword : string;
  variationsChecked : list string;
  suggestTotalChecked : nat;
  suggestAvailableCount : nat;
  suggestions : list DomainCheckResult
}.

(** The object a successful call serializes. *)
Inductive Payload :=
| CheckPayload (result : DomainCheckResult)
| AlternativesPayload (summary : AlternativesSummary)
| SuggestPayload (summary : SuggestSummary)
| TldsPayload (result : list (string * list string)).

Inductive Content :=
| Json (payload : Payload)      (* text: JSON.stringify(payload, null, 2) *)
| Text (text : string).

Record ToolResponse := { content : Content; isError : bool }.

(** The network as the tool call finds it: for the [j]-th batch run of
    the call, the network of its [k]-th domain check. *)
Definition Env := nat -> World.

(** The [for] loop of [suggest_domains] over the names, from the [j]-th
    on. *)
Fixpoint suggestLoop (fuel : nat) (env : Env) (tlds : list string)
    (j : nat) (names : list string)
    (allResults : list DomainCheckResult) (log : list Event)
  : option (result (list DomainCheckResult * list Event)) :=
  match names with
  | [] => Some (Ok (allResults, log))
  | name :: names' =>
      match checkAlternativeTlds fuel (env j) name (Some (slice tlds 0 5))
              {| concurrency := Some 3%Z; batchDelay := None |} with
      | None => None
      | Some (Throw m) => Some (Throw m)
      | Some (Ok (results, events)) =>
          suggestLoop fuel env tlds (S j) names'
            (allResults ++ resultsOf results) (log ++ events)
      end
  end.

(** The [switch] of the handler, inside its [try]. *)
Definition callToolBody (fuel : nat) (env : Env) (name : string) (args : ToolArgs)
  : option (result (Payload * list Event)) :=
  if String.eqb name "check_domain" then
    let domain := argDomain args in
    if negb (truthy domain) then Some (Throw "Domain is required")
    else
      Some (result <- checkDomain (env O O) (show domain) ;;
            Ok (CheckPayload result, []))
  else if String.eqb name "check_alternative_tlds" then
    let domainName := argName args in
    if negb (truthy domainName) then Some (Throw "Domain name is required")
    else
      let tlds :=
        match argTlds args with
        | Some tlds => tlds
        | None =>
            let category := orElse (argCategory args) "general" in
            getSuggestedTlds (Some category)
        end in
      match checkAlternativeTlds fuel (env O) (show domainName) (Some tlds)
              defaultOptions with
      | None => None
      | Some (Throw m) => Some (Throw m)
      | Some (Ok (results, log)) =>
          let available :=
            filter (fun r => isAvailable r) (resultsOf results) in
          let taken :=
            filter (fun r => negb (isAvailable r)) (resultsOf results) in
          Some (Ok (AlternativesPayload
                      {| originalDomain := originalDomainOf results;
                         totalChecked := List.length (resultsOf results);
                         availableCount := List.length available;
                         takenCount := List.length taken;
                         available := available;
                         taken := taken |}, log))
      end
  else if String.eqb name "suggest_domains" then
    let keyword := argKeyword args in
    if negb (truthy keyword) then Some (Throw "Keyword is required")
    else
      let category := orElse (argCategory args) "general" in
      let includeVariations :=
        match argIncludeVariations args with
        | Some false => false
        | _ => true
        end in
      let names :=
        if includeVariations then generateVariations (show keyword)
        else [show keyword] in
      let tlds := getSuggestedTlds (Some category) in
      match suggestLoop fuel env tlds O names [] [] with
      | None => None
      | Some (Throw m) => Some (Throw m)
      | Some (Ok (allResults, log)) =>
          let available := filter (fun r => isAvailable r) allResults in
          Some (Ok (SuggestPayload
                      {| keyword := show keyword;
                         variationsChecked := names;
                         suggestTotalChecked := List.length allResults;
                         suggestAvailableCount := List.length available;
                         suggestions := sort compareSuggestions available |}, log))
      end
  else if String.eqb name "list_tlds" then
    let category := orElse (argCategory args) "all" in
    let result :=
      if String.eqb category "general" then [("general", POPULAR_TLDS)]
      else if String.eqb category "tech" then [("tech", TECH_TLDS)]
      else if String.eqb category "country" then [("country", COUNTRY_TLDS)]
      else [("general", POPULAR_TLDS); ("tech", TECH_TLDS);
            ("country", COUNTRY_TLDS)] in
    Some (Ok (TldsPayload result, []))
  else Some (Throw ("Unknown tool: " ++ name)).

(** The handler: what the [try] returns, or the error it caught. *)
Definition callTool (fuel : nat) (env : Env) (name : string) (args : ToolArgs)
  : option (ToolResponse * list Event) :=
  match callToolBody fuel env name args with
  | None => None
  | Some (Ok (payload, log)) =>
      Some ({| content := Json payload; isError := false |}, log)
  | Some (Throw message) =>
      Some ({| content := Text ("Error: " ++ message); isError := true |}, [])
  end.

Definition noArgs : ToolArgs :=
  {| argDomain := None; argName := None; argTlds := None; argCategory := None;
     argKeyword := None; argIncludeVariations := None |}.

End Mcp.

(** ** The command line ([src/cli.ts])

    [main] on the values and positionals that [parseArgs] hands it.
    What it prints is kept as a list of items, one per [console.log] or
    [console.error], each naming the text or the object printed; beside
    it the exit status of the process. *)

Module Cli.

Record Values := {
  alt : bool;
  tech : bool;
  country : bool;
  tlds : option string;
  json : bool;
  availableOnly : bool;   (* values["available-only"] *)
  help : bool
}.

Inductive Printed :=
| Help                                   (* console.log(HELP) *)
| BatchJson (originalDomain : string)    (* JSON.stringify({...results, *)
            (results : list DomainCheckResult)   (*   results: filteredResults}, null, 2) *)
| Checking (originalDomain : string)     (* "\nChecking availability for: ${...}\n" *)
| Rule                                   (* "=".repeat(60) *)
| AvailableHeading                       (* "\n... AVAILABLE DOMAINS:" *)
| TakenHeading                           (* "\n... TAKEN DOMAINS:" *)
| Indented (r : DomainCheckResult)       (* `  ${formatResult(r, false)}` *)
| RuleBelow                              (* "\n" + "=".repeat(60) *)
| Summary (nAvailable nTaken nChecked : nat)
    (* `Summary: ${available.length} available, ${taken.length} taken
        out of ${results.results.length} checked` *)
| ResultJson (r : DomainCheckResult)     (* JSON.stringify(result, null, 2) *)
| ResultLine (r : DomainCheckResult)     (* formatResult(result, false) *)
| ErrorLine (message : string).          (* console.error(`Error: ${message}`) *)

(** [values.tlds.split(",").map((t) => t.trim().toLowerCase())] *)
Definition parseTlds (text : string) : list string :=
  map (fun t => toLowerCase (trim t)) (split ","%char text).

(** The TLD list of a multi-TLD run. *)
Definition chooseTlds (values : Values) : list string :=
  if truthy (tlds values) then parseTlds (show (tlds values))
  else if tech values then TECH_TLDS
  else if country values then COUNTRY_TLDS
  else POPULAR_TLDS.

(** The body of the [try]: what is printed and, where [process.exit] is
    called, its status. *)
Definition mainBody (fuel : nat) (env : World) (values : Values) (domain : string)
  : option (result (list Printed * option Z)) :=
  if alt values || tech values || country values || truthy (tlds values) then
    match checkAlternativeTlds fuel env domain (Some (chooseTlds values))
            defaultOptions with
    | None => None
    | Some (Throw m) => Some (Throw m)
    | Some (Ok (results, _)) =>
        let filteredResults := resultsOf results in
        let filteredResults :=
          if availableOnly values then filter isAvailable filteredResults
          else filteredResults in
        if json values then
          Some (Ok ([BatchJson (originalDomainOf results) filteredResults], None))
        else
          let available := filter isAvailable filteredResults in
          let taken := filter (fun r => negb (isAvailable r)) filteredResults in
          Some (Ok ([Checking (originalDomainOf results); Rule]
                    ++ (if (0 <? List.length available)%nat
                        then AvailableHeading :: map Indented available else [])
                    ++ (if negb (availableOnly values) && (0 <? List.length taken)%nat
                        then TakenHeading :: map Indented taken else [])
                    ++ [RuleBelow;
                        Summary (List.length available) (List.length taken)
                                (List.length (resultsOf results))],
                    None))
    end
  else
    Some (result <- checkDomain (env O) domain ;;
          Ok ([if json values then ResultJson result else ResultLine result],
              Some (if isAvailable result then 0%Z else 1%Z))).

(** [main]: the printed items and the exit status; a run that ends
    without [process.exit] ends with status 0. *)
Definition main (fuel : nat) (env : World) (values : Values)
    (positionals : list string) : option (list Printed * Z) :=
  match positionals with
  | [] => Some ([Help], if help values then 0%Z else 1%Z)
  | domain :: _ =>
      if help values then Some ([Help], 0%Z)
      else
        match mainBody fuel env values domain with
        | None => None
        | Some (Ok (printed, status)) => Some (printed, orDefault status 0%Z)
        | Some (Throw message) => Some ([ErrorLine message], 1%Z)
        end
  end.

Definition plain : Values :=
  {| alt := false; tech := false; country := false; tlds := None;
     json := false; availableOnly := false; help := false |}.

End Cli.

(** ** Vocabulary of the statements *)

(** What [parseDomain] makes of its argument before it splits it. *)
Definition normalize (s : string) : string := trim (toLowerCase s).

(** The verdict of [checkDomain] for an argument that parses: both probes
    are asked about the normalized domain. *)
Definition verdict (net : Net) (s : string) : DomainCheckResult :=
  let full := normalize s in
  reconcile full (last (split dot full) EmptyString)
            (checkDns net full) (checkWhois net full).

(** Consecutive windows of [c] elements; [fuel] bounds their number. *)
Fixpoint chunks {A} (fuel c : nat) (l : list A) : list (list A) :=
  match fuel with
  | O => []
  | S fuel' =>
      match l with
      | [] => []
      | _ => firstn c l :: chunks fuel' c (skipn c l)
      end
  end.

(** One [Window] per chunk, a [Sleep] between two of them. *)
Fixpoint paced (ms : Z) (windows : list (list string)) : list Event :=
  match windows with
  | [] => []
  | [w] => [Window w]
  | w :: ws => Window w :: Sleep ms :: paced ms ws
  end.

Definition isSleep (e : Event) : bool :=
  match e with Sleep _ => true | Window _ => false end.

Definition windowSizes (log : list Event) : list nat :=
  flat_map (fun e => match e with
                     | Window b => [List.length b]
                     | Sleep _ => []
                     end) log.

(** The bare name [checkAlternativeTlds] works with: the argument, or
    what [parseDomain] finds before its last dot. *)
Definition baseName (domainName : string) : string :=
  if includes dot domainName then
    match parseDomain domainName with
    | Ok p => parsedName p
    | Throw _ => domainName
    end
  else domainName.

(** No white space in front. *)
Definition startsClean (s : string) : Prop :=
  match s with
  | EmptyString => True
  | String c _ => isWhiteSpace c = false
  end.

(** Equal up to letter case, as flag [i] compares. *)
Fixpoint sameIgnoringCase (w w' : string) : bool :=
  match w, w' with
  | EmptyString, EmptyString => true
  | String c w1, String x w1' => charMatches true c x && sameIgnoringCase w1 w1'
  | _, _ => false
  end.

(** The words that the purely literal patterns of [checkWhois] look for. *)
Definition takenKeywords : list string :=
  ["registrar:"; "creation date:"; "registered on:"; "name server:";
   "registrant:"].

Definition availableKeywords : list string :=
  ["no match"; "not found"; "no data found"; "no entries found";
   "domain not found"; "no object found"; "nothing found"].

(** A lookup that is not answered before the timer of [ms] fires. *)
Definition late {A} (p : promise A) (ms : Z) : Prop :=
  match p with
  | SettlesAt t _ => (ms <= t)%Z
  | NeverSettles => True
  end.

(** The windows of a log, in the order they ran. *)
Definition windowsOf (log : list Event) : list (list string) :=
  flat_map (fun e => match e with
                     | Window b => [b]
                     | Sleep _ => []
                     end) log.

(** Both lookups for a domain are answered within the time limits, and
    the resolver's error is not worded like the timer's. *)
Definition answersInTime (net : Net) (full : string) : Prop :=
  (exists t o, dnsResolve net full = SettlesAt t o /\ (t < DNS_TIMEOUT_MS)%Z
               /\ match o with
                  | Fulfilled _ => True
                  | Rejected e => message e <> "DNS lookup timed out"
                  end)
  /\ (exists t o, lookupAsync net full = SettlesAt t o /\ (t < WHOIS_TIMEOUT_MS)%Z).

(** How often a character occurs in a string. *)
Fixpoint occ (c : ascii) (s : string) : nat :=
  match s with
  | EmptyString => 0
  | String x s' => (if Ascii.eqb x c then 1 else 0) + occ c s'
  end.

(** Every character of the string passes the test. *)
Fixpoint allChars (P : ascii -> bool) (s : string) : bool :=
  match s with
  | EmptyString => true
  | String c s' => P c && allChars P s'
  end.

(** [a] may stand in front of [b] in the suggestions. *)
Definition leSuggestion (a b : DomainCheckResult) : Prop :=
  (Mcp.compareSuggestions a b <= 0)%Z.

(** Same confidence and same length of the domain: the comparator sees
    no difference. *)
Definition sameRank (a b : DomainCheckResult) : bool :=
  Mcp.sameConfidence (confidence a) (confidence b)
  && (String.length (domain a) =? String.length (domain b))%nat.

(** The verdicts of one batch run over [tlds] for [name], and of the
    batch runs for several names one after the other. *)
Definition batchResults (world : World) (name : string) (tlds : list string)
  : list DomainCheckResult :=
  mapFrom (fun k t => verdict (world k) (baseName name ++ "." ++ t)) 0 tlds.

Fixpoint suggestResults (env : Mcp.Env) (tlds : list string) (j : nat)
    (names : list string) : list DomainCheckResult :=
  match names with
  | [] => []
  | name :: names' =>
      batchResults (env j) name tlds ++ suggestResults env tlds (S j) names'
  end.

(** The events of one batch run with a window of three and the default
    delay, and of such runs for several names. *)
Definition batchLog (tlds : list string) : list Event :=
  paced BATCH_DELAY_MS (chunks (List.length tlds) 3 tlds).

Definition suggestLog (tlds : list string) (names : list string) : list Event :=
  flat_map (fun _ => batchLog tlds) names.

(** A multi-TLD run of the command line: any of --alt, --tech, --country
    or a --tlds list. *)
Definition multiTld (values : Cli.Values) : bool :=
  Cli.alt values || Cli.tech values || Cli.country values
  || truthy (Cli.tlds values).

(** The available-patterns without [/domain not found/i] and without the
    anchored [/^% no match$/im]. *)
Definition availablePatternsCore : list regex :=
  [ re_i (lits "no match");
    re_i (lits "not found");
    re_i (lits "no data found");
    re_i (lits "no entries found");
    re_i (lits "status:" ++ [Star ClsSpace] ++ lits "free");
    re_i (lits "status:" ++ [Star ClsSpace] ++ lits "available");
    re_i (lits "no object found");
    re_i (lits "nothing found") ].

(** The order of the suggestions spelled out: high before medium before
    low, and within one confidence the shorter domain first. *)
Definition suggestionOrder (a b : DomainCheckResult) : Prop :=
  match confidence a, confidence b with
  | high, high | medium, medium | low, low =>
      (String.length (domain a) <= String.length (domain b))%nat
  | high, medium | high, low | medium, low => True
  | medium, high | low, high | low, medium => False
  end.

(** The same confidence and the same length of the domain. *)
Definition sameKey (a b : DomainCheckResult) : bool :=
  match confidence a, confidence b with
  | high, high | medium, medium | low, low =>
      (String.length (domain a) =? String.length (domain b))%nat
  | _, _ => false
  end.

(** The tools the handler knows. *)
Definition knownTools : list string :=
  ["check_domain"; "check_alternative_tlds"; "suggest_domains"; "list_tlds"].

(** ** Networks to run the engine on *)

Definition lf : string := String (ascii_of_nat 10) EmptyString.

(** A registered, served domain. *)
Definition liveNet : Net :=
  {| dnsResolve := fun _ => SettlesAt 12 (Fulfilled ["93.184.216.34"]);
     lookupAsync := fun _ =>
       SettlesAt 300 (Fulfilled ("Domain Name: EXAMPLE.COM" ++ lf ++
                                 "Registrar: Example Corp" ++ lf)%string) |}.

(** A free domain: the resolver knows no such name, the registry has no
    match. *)
Definition freeNet : Net :=
  {| dnsResolve := fun d =>
       SettlesAt 20 (Rejected {| code := Some "ENOTFOUND";
                                 message := ("queryA ENOTFOUND " ++ d)%string |});
     lookupAsync := fun _ =>
       SettlesAt 250 (Fulfilled ("No match for domain." ++ lf)%string) |}.

(** Resolver failure and a WHOIS server that never answers. *)
Definition downNet : Net :=
  {| dnsResolve := fun d =>
       SettlesAt 40 (Rejected {| code := Some "ESERVFAIL";
                                 message := ("queryA ESERVFAIL " ++ d)%string |});
     lookupAsync := fun _ => NeverSettles |}.

(** The resolver answers (no such name), the WHOIS connection fails. *)
Definition whoisDownNet : Net :=
  {| dnsResolve := fun d =>
       SettlesAt 20 (Rejected {| code := Some "ENOTFOUND";
                                 message := ("queryA ENOTFOUND " ++ d)%string |});
     lookupAsync := fun _ =>
       SettlesAt 30 (Rejected {| code := Some "ECONNREFUSED";
                                 message := "connect ECONNREFUSED 192.0.2.1:43" |}) |}.

(** A WHOIS server that returns the given text; no address record. *)
Definition whoisSays (text : string) : Net :=
  {| dnsResolve := fun d =>
       SettlesAt 20 (Rejected {| code := Some "ENODATA";
                                 message := ("queryA ENODATA " ++ d)%string |});
     lookupAsync := fun _ => SettlesAt 100 (Fulfilled text) |}.

(** Nothing answers: the resolver is slow, the WHOIS server silent. *)
Definition silentNet : Net :=
  {| dnsResolve := fun _ => SettlesAt 7000 (Fulfilled ["192.0.2.7"]);
     lookupAsync := fun _ => NeverSettles |}.

(** ** Two readings of the result record that the engine does not have *)

(** "[method = both] means that neither probe carries an error". *)
Definition both_means_no_probe_error (net : Net) (s : string) : Prop :=
  forall r, checkDomain net s = Ok r -> method r = both ->
    truthy (dnsError (checkDns net (normalize s))) = false
    /\ truthy (whoisError (checkWhois net (normalize s))) = false.

(** "[error] is present exactly when at least one probe failed". *)
Definition error_iff_a_probe_failed (net : Net) (s : string) : Prop :=
  forall r, checkDomain net s = Ok r ->
    (error r <> None <->
     truthy (dnsError (checkDns net (normalize s))) = true
     \/ truthy (whoisError (checkWhois net (normalize s))) = true).

(** * Properties *)

(** ** Strings *)

Section StringFacts.

Lemma lowerUnit_dot (c : ascii) :
  Ascii.eqb (lowerUnit c) dot = Ascii.eqb c dot.
Proof.
  destruct c as [[] [] [] [] [] [] [] []]; reflexivity.
Qed.

Lemma whiteSpace_not_dot (c : ascii) :
  isWhiteSpace c = true -> Ascii.eqb c dot = false.
Proof.
  destruct c as [[] [] [] [] [] [] [] []]; vm_compute; congruence.
Qed.

Lemma includes_toLowerCase (s : string) :
  includes dot (toLowerCase s) = includes dot s.
Proof.
  induction s as [|c s IH]; simpl; [reflexivity|].
  now rewrite lowerUnit_dot, IH.
Qed.

Lemma includes_trimStart (s : string) :
  includes dot (trimStart s) = includes dot s.
Proof.
  induction s as [|c s IH]; simpl; [reflexivity|].
  destruct (isWhiteSpace c) eqn:W; simpl; [|reflexivity].
  now rewrite (whiteSpace_not_dot c W), IH.
Qed.

Lemma includes_trimEnd (s : string) :
  includes dot (trimEnd s) = includes dot s.
Proof.
  induction s as [|c s IH]; simpl; [reflexivity|].
  destruct (trimEnd s) as [|x t] eqn:E.
  - simpl in IH. rewrite <- IH.
    destruct (isWhiteSpace c) eqn:W; simpl.
    + now rewrite (whiteSpace_not_dot c W).
    + reflexivity.
  - simpl. simpl in IH. now rewrite IH.
Qed.

Lemma includes_trim (s : string) : includes dot (trim s) = includes dot s.
Proof.
  unfold trim. now rewrite includes_trimEnd, includes_trimStart.
Qed.

Lemma split_not_nil (sep : ascii) (s : string) : split sep s <> [].
Proof.
  destruct s as [|c s]; simpl; [discriminate|].
  destruct (Ascii.eqb c sep); [discriminate|].
  destruct (split sep s); discriminate.
Qed.

(** A string without the separator is one part: itself. *)
Lemma split_without_sep (sep : ascii) (s : string) :
  includes sep s = false -> split sep s = [s].
Proof.
  induction s as [|c s IH]; simpl; [reflexivity|].
  intros H. apply orb_false_iff in H as [Hc Hs].
  rewrite Hc, (IH Hs). reflexivity.
Qed.

(** A string with the separator has at least two parts. *)
Lemma split_with_sep (sep : ascii) (s : string) :
  includes sep s = true -> (2 <= List.length (split sep s))%nat.
Proof.
  induction s as [|c s IH]; simpl; [discriminate|].
  destruct (Ascii.eqb c sep); simpl.
  - intros _. pose proof (split_not_nil sep s).
    destruct (split sep s); simpl; [congruence|lia].
  - intros H. specialize (IH H).
    destruct (split sep s); simpl in *; lia.
Qed.

(** Joining the parts with the separator gives the string back. *)
Lemma join_split (sep : ascii) (s : string) :
  join (String sep EmptyString) (split sep s) = s.
Proof.
  induction s as [|c s IH]; simpl; [reflexivity|].
  destruct (Ascii.eqb c sep) eqn:E.
  - apply Ascii.eqb_eq in E. subst c.
    pose proof (split_not_nil sep s) as N.
    destruct (split sep s) as [|p ps]; [congruence|].
    simpl. simpl in IH. now rewrite IH.
  - pose proof (split_not_nil sep s) as N.
    destruct (split sep s) as [|p ps]; [congruence|].
    destruct ps as [|q qs]; simpl in *; now rewrite <- IH.
Qed.

Lemma append_assoc (a b c : string) : ((a ++ b) ++ c = a ++ b ++ c)%string.
Proof. induction a as [|x a IH]; simpl; [reflexivity|now rewrite IH]. Qed.

(** Taking the last part off and putting it back, as [parseDomain] and
    the template literal of [checkDomain] do. *)
Lemma join_pop (sep : string) (parts : list string) :
  (2 <= List.length parts)%nat ->
  (join sep (removelast parts) ++ sep ++ last parts EmptyString)%string
  = join sep parts.
Proof.
  induction parts as [|p ps IH]; simpl; [lia|].
  intros H. destruct ps as [|q qs]; [simpl in H; lia|].
  destruct qs as [|r rs].
  - reflexivity.
  - assert (H2 : (2 <= List.length (q :: r :: rs))%nat) by (simpl; lia).
    specialize (IH H2).
    change (removelast (q :: r :: rs)) with (q :: removelast (r :: rs)) in *.
    change (last (q :: r :: rs) EmptyString) with (last (r :: rs) EmptyString) in *.
    remember (removelast (r :: rs)) as init.
    remember (last (r :: rs) EmptyString) as l.
    change (join sep (p :: q :: init)) with (p ++ sep ++ join sep (q :: init))%string.
    change (join sep (p :: q :: r :: rs)) with (p ++ sep ++ join sep (q :: r :: rs))%string.
    rewrite <- IH. now rewrite !append_assoc.
Qed.

Lemma append_nil_r (a : string) : (a ++ EmptyString)%string = a.
Proof. induction a as [|x a IH]; simpl; [reflexivity|now rewrite IH]. Qed.

Lemma includes_append_dot (a b : string) :
  includes dot (a ++ "." ++ b) = true.
Proof.
  induction a as [|x a IH]; simpl in *; [reflexivity|].
  rewrite IH. apply orb_true_r.
Qed.

Lemma prefix_append (a b : string) : prefix a (a ++ b) = true.
Proof.
  induction a as [|x a IH]; simpl; [now destruct b|].
  destruct (ascii_dec x x); [exact IH|congruence].
Qed.

Lemma includesStr_here (needle rest : string) :
  includesStr needle (needle ++ rest) = true.
Proof.
  pose proof (prefix_append needle rest) as P.
  destruct (needle ++ rest)%string; cbn [includesStr]; now rewrite P.
Qed.

Lemma includesStr_append (needle before after : string) :
  includesStr needle (before ++ needle ++ after) = true.
Proof.
  induction before as [|x b IH]; simpl.
  - apply includesStr_here.
  - rewrite IH. apply orb_true_r.
Qed.

End StringFacts.

(** ** parseDomain and checkDomain *)

Lemma includes_normalize (s : string) :
  includes dot (normalize s) = includes dot s.
Proof.
  unfold normalize. now rewrite includes_trim, includes_toLowerCase.
Qed.

(** Without a dot there is one part only and [parseDomain] throws. *)
Lemma parseDomain_no_dot (s : string) :
  includes dot s = false ->
  parseDomain s =
  Throw ("Invalid domain format: " ++ s ++ ". Expected format: name.tld").
Proof.
  intros H. unfold parseDomain. fold (normalize s).
  rewrite split_without_sep by now rewrite includes_normalize.
  reflexivity.
Qed.

(** With a dot it returns, and name and TLD put together again are the
    normalized argument. *)
Lemma parseDomain_dot (s : string) :
  includes dot s = true ->
  exists p, parseDomain s = Ok p
            /\ (parsedName p ++ "." ++ parsedTld p)%string = normalize s
            /\ parsedTld p = last (split dot (normalize s)) EmptyString.
Proof.
  intros H. unfold parseDomain. fold (normalize s).
  assert (L : (2 <= List.length (split dot (normalize s)))%nat)
    by (apply split_with_sep; now rewrite includes_normalize).
  destruct (Nat.ltb_spec (List.length (split dot (normalize s))) 2) as [C|_];
    [lia|].
  eexists. split; [reflexivity|]. split; [|reflexivity].
  cbn [parsedName parsedTld].
  rewrite join_pop by exact L. apply (join_split dot).
Qed.

Lemma parseDomain_Ok_dot (s : string) (p : ParsedDomain) :
  parseDomain s = Ok p -> includes dot s = true.
Proof.
  intros H. destruct (includes dot s) eqn:E; [reflexivity|].
  rewrite (parseDomain_no_dot s E) in H. discriminate.
Qed.

Lemma checkDomain_dot (net : Net) (s : string) :
  includes dot s = true -> checkDomain net s = Ok (verdict net s).
Proof.
  intros H. destruct (parseDomain_dot s H) as (p & P & F & T).
  unfold checkDomain. rewrite P. cbn [bind].
  unfold verdict. now rewrite F, T.
Qed.

Lemma checkDomain_Ok (net : Net) (s : string) (r : DomainCheckResult) :
  checkDomain net s = Ok r -> r = verdict net s.
Proof.
  intros H. destruct (includes dot s) eqn:E.
  - rewrite (checkDomain_dot net s E) in H. congruence.
  - unfold checkDomain in H. rewrite (parseDomain_no_dot s E) in H.
    discriminate.
Qed.

Lemma verdict_domain (net : Net) (s : string) :
  domain (verdict net s) = normalize s.
Proof.
  unfold verdict, reconcile.
  repeat match goal with
         | |- context [if ?b then _ else _] => destruct b
         end; reflexivity.
Qed.

Lemma verdict_tld (net : Net) (s : string) :
  tld (verdict net s) = last (split dot (normalize s)) EmptyString.
Proof.
  unfold verdict, reconcile.
  repeat match goal with
         | |- context [if ?b then _ else _] => destruct b
         end; reflexivity.
Qed.

(** Case analysis of [reconcile] over everything its tests look at. *)
Ltac reconcile_cases d w :=
  unfold reconcile;
  destruct (truthy (dnsError d)) eqn:?, (truthy (whoisError w)) eqn:?,
           (dnsExists d) eqn:?, (whoisAvailable w) eqn:?;
  cbn in *.

(** A probe never reports both a record and an error. *)
Lemma checkDns_exists_no_error (net : Net) (s : string) :
  dnsExists (checkDns net s) = true -> dnsError (checkDns net s) = None.
Proof.
  unfold checkDns.
  destruct (withTimeout _ _ _) as [a|e]; [reflexivity|].
  destruct (codeIs e "ENOTFOUND" || codeIs e "ENODATA"); [reflexivity|].
  destruct (String.eqb (message e) "DNS lookup timed out"); discriminate.
Qed.

Lemma reconcile_dns_exists (full t : string) (d : DnsResult) (w : WhoisResult) :
  dnsExists d = true -> truthy (dnsError d) = false ->
  available (reconcile full t d w) = false
  /\ confidence (reconcile full t d w) = high.
Proof.
  intros E T. reconcile_cases d w; try discriminate; auto.
Qed.

(** C1: whenever the DNS probe of a [checkDomain] call reports that a
    record exists, the call returns a result with [available = false] and
    [confidence = high], whatever the WHOIS service did (classified the
    domain as available or as taken, failed, or timed out). *)
Theorem checkDomain_dns_record_exists
    (net : Net) (s : string) (p : ParsedDomain) :
  parseDomain s = Ok p ->
  dnsExists (checkDns net (normalize s)) = true ->
  exists r, checkDomain net s = Ok r
            /\ domain r = normalize s
            /\ available r = false
            /\ confidence r = high.
Proof.
  intros P E.
  exists (verdict net s).
  split; [apply checkDomain_dot, (parseDomain_Ok_dot s P)|].
  split; [apply verdict_domain|].
  apply reconcile_dns_exists; [exact E|].
  now rewrite (checkDns_exists_no_error net _ E).
Qed.

Lemma reconcile_both_failed (full t : string) (d : DnsResult) (w : WhoisResult) :
  truthy (dnsError d) = true -> truthy (whoisError w) = true ->
  reconcile full t d w =
  {| domain := full; tld := t; available := false; method := both;
     confidence := low; details := Some "Both DNS and WHOIS checks failed";
     error := Some ("DNS: " ++ show (dnsError d) ++
                    ", WHOIS: " ++ show (whoisError w))%string |}.
Proof.
  intros D W. unfold reconcile. now rewrite D, W.
Qed.

Lemma truthy_Some (e : option string) :
  truthy e = true -> exists m, e = Some m /\ m <> EmptyString.
Proof.
  destruct e as [m|]; [|discriminate]. simpl.
  intros H. exists m. split; [reflexivity|].
  intros ->. discriminate.
Qed.

(** C3: when both probes of a [checkDomain] call end with an error, the
    call does not throw: it returns [available = false],
    [confidence = low], [method = both] and an [error] text composed of
    the DNS description and the WHOIS description, each of which occurs
    in it. *)
Theorem checkDomain_both_probes_failed
    (net : Net) (s : string) (p : ParsedDomain) :
  parseDomain s = Ok p ->
  truthy (dnsError (checkDns net (normalize s))) = true ->
  truthy (whoisError (checkWhois net (normalize s))) = true ->
  exists r dnsMsg whoisMsg,
    checkDomain net s = Ok r
    /\ dnsError (checkDns net (normalize s)) = Some dnsMsg
    /\ whoisError (checkWhois net (normalize s)) = Some whoisMsg
    /\ available r = false /\ confidence r = low /\ method r = both
    /\ error r = Some ("DNS: " ++ dnsMsg ++ ", WHOIS: " ++ whoisMsg)%string
    /\ includesStr dnsMsg (show (error r)) = true
    /\ includesStr whoisMsg (show (error r)) = true.
Proof.
  intros P D W.
  destruct (truthy_Some _ D) as (dm & Ed & _).
  destruct (truthy_Some _ W) as (wm & Ew & _).
  exists (verdict net s), dm, wm.
  split; [apply checkDomain_dot, (parseDomain_Ok_dot s P)|].
  unfold verdict. rewrite (reconcile_both_failed _ _ _ _ D W).
  rewrite Ed, Ew. cbn [available confidence method error show].
  repeat split.
  - apply (includesStr_append dm "DNS: ").
  - replace ("DNS: " ++ dm ++ ", WHOIS: " ++ wm)%string
      with (("DNS: " ++ dm ++ ", WHOIS: ") ++ wm ++ EmptyString)%string
      by (rewrite append_nil_r, !append_assoc; reflexivity).
    apply includesStr_append.
Qed.

Lemma checkDomain_dns_record_exists_witness :
  exists r, checkDomain liveNet "Example.COM" = Ok r
            /\ domain r = "example.com"
            /\ available r = false
            /\ confidence r = high.
Proof.
  apply (checkDomain_dns_record_exists liveNet "Example.COM"
           (p := {| parsedName := "example"; parsedTld := "com" |}));
    reflexivity.
Defined.

Lemma checkDomain_both_probes_failed_witness :
  exists r dnsMsg whoisMsg,
    checkDomain downNet "example.com" = Ok r
    /\ dnsError (checkDns downNet "example.com") = Some dnsMsg
    /\ whoisError (checkWhois downNet "example.com") = Some whoisMsg
    /\ available r = false /\ confidence r = low /\ method r = both
    /\ error r = Some ("DNS: " ++ dnsMsg ++ ", WHOIS: " ++ whoisMsg)%string
    /\ includesStr dnsMsg (show (error r)) = true
    /\ includesStr whoisMsg (show (error r)) = true.
Proof.
  apply (checkDomain_both_probes_failed downNet "example.com"
           (p := {| parsedName := "example"; parsedTld := "com" |}));
    reflexivity.
Defined.

(** What the composed text looks like on a failing network. *)
Example checkDomain_downNet :
  checkDomain downNet "example.com" =
  Ok {| domain := "example.com"; tld := "com"; available := false;
        method := both; confidence := low;
        details := Some "Both DNS and WHOIS checks failed";
        error := Some "DNS: queryA ESERVFAIL example.com, WHOIS: WHOIS lookup timed out" |}.
Proof. reflexivity. Qed.

(** A DNS lookup that runs into its timer is reported as "timeout". *)
Example checkDns_timeout :
  checkDns {| dnsResolve := fun _ => SettlesAt 5000 (Fulfilled ["192.0.2.7"]);
              lookupAsync := fun _ => NeverSettles |} "example.com"
  = {| dnsExists := false; dnsError := Some "timeout" |}.
Proof. reflexivity. Qed.

(** ** The invariants of the result record *)

Lemma reconcile_method_both (full t : string) (d : DnsResult) (w : WhoisResult) :
  method (reconcile full t d w) = both ->
  (truthy (dnsError d) = false /\ truthy (whoisError w) = false)
  \/ (truthy (dnsError d) = true /\ truthy (whoisError w) = true
      /\ confidence (reconcile full t d w) = low).
Proof.
  reconcile_cases d w; intros H; try discriminate; auto.
Qed.

(** C4, as the specification words it, fails: with both probes failing
    the result says [method = both]. *)
Lemma method_both_with_failed_probes :
  ~ both_means_no_probe_error downNet "example.com".
Proof.
  intros H.
  destruct (H _ eq_refl eq_refl) as [D _].
  vm_compute in D. discriminate.
Qed.

(** C4 (amended): for every result of [checkDomain], [method = both]
    means that the two probes ended alike: either neither carries an
    error, or both failed, and then [confidence = low]. *)
Theorem checkDomain_method_both
    (net : Net) (s : string) (r : DomainCheckResult) :
  checkDomain net s = Ok r ->
  method r = both ->
  (truthy (dnsError (checkDns net (normalize s))) = false
   /\ truthy (whoisError (checkWhois net (normalize s))) = false)
  \/ (truthy (dnsError (checkDns net (normalize s))) = true
      /\ truthy (whoisError (checkWhois net (normalize s))) = true
      /\ confidence r = low).
Proof.
  intros C. rewrite (checkDomain_Ok _ _ C). apply reconcile_method_both.
Qed.

Lemma checkDomain_method_both_witness :
  (truthy (dnsError (checkDns liveNet "example.com")) = false
   /\ truthy (whoisError (checkWhois liveNet "example.com")) = false)
  \/ (truthy (dnsError (checkDns liveNet "example.com")) = true
      /\ truthy (whoisError (checkWhois liveNet "example.com")) = true
      /\ confidence (verdict liveNet "example.com") = low).
Proof.
  apply (checkDomain_method_both liveNet "example.com"
           (r := verdict liveNet "example.com")); reflexivity.
Defined.

Lemma reconcile_error (full t : string) (d : DnsResult) (w : WhoisResult) :
  (truthy (dnsError d) && truthy (whoisError w) = true ->
   error (reconcile full t d w)
   = Some ("DNS: " ++ show (dnsError d) ++ ", WHOIS: " ++ show (whoisError w))%string)
  /\ (truthy (dnsError d) && truthy (whoisError w) = false ->
      error (reconcile full t d w) = None).
Proof.
  reconcile_cases d w; split; intros H; try discriminate; reflexivity.
Qed.

(** C6, as the specification words it, fails: when only the WHOIS probe
    fails the result carries no [error] at all. *)
Lemma no_error_recorded_for_one_failed_probe :
  ~ error_iff_a_probe_failed whoisDownNet "example.com".
Proof.
  intros H.
  destruct (H _ eq_refl) as [_ B].
  apply B; [right|]; reflexivity.
Qed.

(** C6 (amended): the result of [checkDomain] carries an [error] exactly
    when both probes failed, and then it is the text composed of the two
    descriptions; a result for which at most one probe failed has no
    [error]. *)
Theorem checkDomain_error_iff_both_failed
    (net : Net) (s : string) (r : DomainCheckResult) :
  checkDomain net s = Ok r ->
  (error r <> None <->
   truthy (dnsError (checkDns net (normalize s))) = true
   /\ truthy (whoisError (checkWhois net (normalize s))) = true)
  /\ (error r <> None ->
      error r = Some ("DNS: " ++ show (dnsError (checkDns net (normalize s))) ++
                      ", WHOIS: " ++
                      show (whoisError (checkWhois net (normalize s))))%string).
Proof.
  intros C. rewrite (checkDomain_Ok _ _ C). unfold verdict.
  set (d := checkDns net (normalize s)).
  set (w := checkWhois net (normalize s)).
  destruct (reconcile_error (normalize s)
              (last (split dot (normalize s)) EmptyString) d w) as [Y N].
  destruct (truthy (dnsError d)) eqn:D, (truthy (whoisError w)) eqn:W;
    cbn [andb] in *;
    try (rewrite (N eq_refl); split; [split; [congruence|intros [? ?]; discriminate]|congruence]).
  rewrite (Y eq_refl). split; [split; [auto|discriminate]|reflexivity].
Qed.

Lemma checkDomain_error_iff_both_failed_witness :
  (error (verdict whoisDownNet "example.com") <> None <->
   truthy (dnsError (checkDns whoisDownNet "example.com")) = true
   /\ truthy (whoisError (checkWhois whoisDownNet "example.com")) = true)
  /\ (error (verdict whoisDownNet "example.com") <> None ->
      error (verdict whoisDownNet "example.com")
      = Some ("DNS: " ++ show (dnsError (checkDns whoisDownNet "example.com")) ++
              ", WHOIS: " ++
              show (whoisError (checkWhois whoisDownNet "example.com")))%string).
Proof.
  apply (checkDomain_error_iff_both_failed whoisDownNet "example.com"
           (r := verdict whoisDownNet "example.com")); reflexivity.
Defined.

Lemma reconcile_available_both (full t : string) (d : DnsResult) (w : WhoisResult) :
  method (reconcile full t d w) = both ->
  available (reconcile full t d w) = true ->
  confidence (reconcile full t d w) = high.
Proof.
  reconcile_cases d w; intros M A; try discriminate; reflexivity.
Qed.

(** C10: a result of [checkDomain] with [method = both] and
    [available = true] has [confidence = high]; the last branch of the
    both-succeeded case, the only one that would give medium, is never
    taken. *)
Theorem checkDomain_available_both_high
    (net : Net) (s : string) (r : DomainCheckResult) :
  checkDomain net s = Ok r ->
  method r = both ->
  available r = true ->
  confidence r = high.
Proof.
  intros C. rewrite (checkDomain_Ok _ _ C). apply reconcile_available_both.
Qed.

Lemma checkDomain_available_both_high_witness :
  confidence (verdict freeNet "example.com") = high.
Proof.
  apply (checkDomain_available_both_high freeNet "example.com"
           (r := verdict freeNet "example.com")); reflexivity.
Defined.

(** The same for whatever two probe results are merged, also ones the
    probes cannot produce: no pair leads to the fallback verdict. *)
Lemma reconcile_never_available_medium_both
    (full t : string) (d : DnsResult) (w : WhoisResult) :
  ~ (method (reconcile full t d w) = both
     /\ available (reconcile full t d w) = true
     /\ confidence (reconcile full t d w) = medium).
Proof.
  intros (M & A & C).
  rewrite (reconcile_available_both _ _ _ _ M A) in C. discriminate.
Qed.

(** ** Input errors *)

(** C8: for an argument without a dot, [checkDomain] throws the format
    error of [parseDomain] and returns no result. *)
Theorem checkDomain_no_dot (net : Net) (s : string) :
  includes dot s = false ->
  checkDomain net s =
  Throw ("Invalid domain format: " ++ s ++ ". Expected format: name.tld").
Proof.
  intros H. unfold checkDomain. now rewrite (parseDomain_no_dot s H).
Qed.

Lemma checkDomain_no_dot_witness :
  checkDomain liveNet "x" =
  Throw "Invalid domain format: x. Expected format: name.tld".
Proof.
  apply (checkDomain_no_dot liveNet "x"). reflexivity.
Defined.

(** Conversely, an argument with a dot always gets a result. *)
Lemma checkDomain_returns_iff_dot (net : Net) (s : string) :
  (exists r, checkDomain net s = Ok r) <-> includes dot s = true.
Proof.
  split.
  - intros [r H]. destruct (includes dot s) eqn:E; [reflexivity|].
    unfold checkDomain in H. rewrite (parseDomain_no_dot s E) in H.
    discriminate.
  - intros H. eexists. apply (checkDomain_dot net s H).
Qed.

(** ** The WHOIS classifier *)

(** C2: on the text that the lookup returned, the classifier says
    available when an available-pattern matches and no taken-pattern
    does; it says taken when a taken-pattern matches, whether or not an
    available-pattern matches too; and when no pattern matches at all it
    says taken, with details that read "ambiguous, assuming taken". *)
Theorem checkWhois_policy (net : Net) (s text : string) :
  withTimeout (lookupAsync net s) WHOIS_TIMEOUT_MS "WHOIS lookup timed out"
  = Fulfilled text ->
  whoisError (checkWhois net s) = None
  /\ (some availablePatterns text = true -> some takenPatterns text = false ->
      whoisAvailable (checkWhois net s) = true
      /\ whoisDetails (checkWhois net s)
         = Some "WHOIS shows domain is not registered")
  /\ (some takenPatterns text = true ->
      whoisAvailable (checkWhois net s) = false
      /\ whoisDetails (checkWhois net s) = Some "WHOIS shows domain is registered")
  /\ (some availablePatterns text = false -> some takenPatterns text = false ->
      whoisAvailable (checkWhois net s) = false
      /\ exists d, whoisDetails (checkWhois net s) = Some d
                   /\ includesStr "ambiguous, assuming taken" d = true).
Proof.
  intros L. unfold checkWhois. rewrite L. unfold classifyWhois.
  destruct (some availablePatterns text), (some takenPatterns text);
    cbn [andb negb whoisError whoisAvailable whoisDetails];
    repeat split; intros; try discriminate.
  eexists. split; reflexivity.
Qed.

Lemma checkWhois_policy_witness :
  whoisAvailable (checkWhois (whoisSays "No match for domain.") "example.com")
  = true
  /\ whoisAvailable
       (checkWhois (whoisSays ("No match for domain." ++ lf ++
                               "Registrar: Example Corp")) "example.com")
     = false
  /\ (whoisAvailable
        (checkWhois (whoisSays "Please try again later.") "example.com") = false
      /\ exists d,
          whoisDetails
            (checkWhois (whoisSays "Please try again later.") "example.com")
          = Some d
          /\ includesStr "ambiguous, assuming taken" d = true).
Proof.
  split; [|split].
  - destruct (checkWhois_policy (whoisSays "No match for domain.") "example.com"
                (text := "No match for domain.") eq_refl)
      as (_ & F & _ & _).
    exact (proj1 (F eq_refl eq_refl)).
  - destruct (checkWhois_policy
                (whoisSays ("No match for domain." ++ lf ++ "Registrar: Example Corp"))
                "example.com"
                (text := ("No match for domain." ++ lf ++ "Registrar: Example Corp")%string)
                eq_refl)
      as (_ & _ & T & _).
    exact (proj1 (T eq_refl)).
  - destruct (checkWhois_policy (whoisSays "Please try again later.") "example.com"
                (text := "Please try again later.") eq_refl)
      as (_ & _ & _ & A).
    exact (A eq_refl eq_refl).
Defined.

(** A lookup that fails or runs into its timer is an error, not a
    classification. *)
Lemma checkWhois_rejected (net : Net) (s : string) (e : JsError) :
  withTimeout (lookupAsync net s) WHOIS_TIMEOUT_MS "WHOIS lookup timed out"
  = Rejected e ->
  checkWhois net s =
  {| whoisAvailable := false; whoisDetails := None;
     whoisError := Some (message e) |}.
Proof.
  intros L. unfold checkWhois. now rewrite L.
Qed.

(** The anchored pattern needs a line of its own; the others match
    anywhere and in any letter case. *)
Example anchored_no_match :
  test (re_im ([Bol] ++ lits "% no match" ++ [Eol]))
       ("% Copyright" ++ lf ++ "% NO MATCH" ++ lf) = true
  /\ test (re_im ([Bol] ++ lits "% no match" ++ [Eol])) "see % no match." = false
  /\ test (re_i (lits "status:" ++ [Star ClsSpace] ++ lits "free"))
          ("Status:" ++ lf ++ "   FREE") = true
  /\ test (re_i (lits "domain name:" ++ [Star ClsSpace; Plus ClsAny]))
          "Domain Name:" = false.
Proof. repeat split; reflexivity. Qed.

(** ** The batch loop *)

Section BatchFacts.

Variable world : World.
Variable name : string.
Variable tlds : list string.
Variable c d : Z.
Hypothesis c_pos : (0 < c)%Z.

Let V (k : nat) (t : string) : DomainCheckResult :=
  verdict (world k) (name ++ "." ++ t).

Lemma mapFrom_app {A B} (f : nat -> A -> B) (k : nat) (l1 l2 : list A) :
  mapFrom f k (l1 ++ l2) = mapFrom f k l1 ++ mapFrom f (k + List.length l1) l2.
Proof.
  revert k. induction l1 as [|a l1 IH]; intros k; simpl.
  - now rewrite Nat.add_0_r.
  - rewrite IH. now rewrite Nat.add_succ_r.
Qed.

Lemma mapFrom_length {A B} (f : nat -> A -> B) (k : nat) (l : list A) :
  List.length (mapFrom f k l) = List.length l.
Proof.
  revert k. induction l as [|a l IH]; intros k; simpl; [reflexivity|].
  now rewrite IH.
Qed.

(** No check of a batch throws: every [name.tld] has its dot. *)
Lemma promiseAll_checks (k : nat) (batch : list string) :
  promiseAll (mapFrom (fun k t => checkDomain (world k) (name ++ "." ++ t)) k batch)
  = Ok (mapFrom V k batch).
Proof.
  revert k. induction batch as [|t batch IH]; intros k;
    cbn [mapFrom promiseAll]; [reflexivity|].
  rewrite (checkDomain_dot (world k) _ (includes_append_dot name t)).
  cbn [bind]. rewrite IH. reflexivity.
Qed.

(** The slice of an iteration is the next [c] TLDs that are left. *)
Lemma slice_window (done rest : list string) :
  tlds = done ++ rest ->
  slice tlds (Z.of_nat (List.length done)) (Z.of_nat (List.length done) + c)
  = firstn (Z.to_nat c) rest.
Proof.
  intros ->. unfold slice, relativeIndex.
  rewrite length_app, Nat2Z.inj_add.
  set (n := Z.of_nat (List.length done)).
  set (m := Z.of_nat (List.length rest)).
  assert (0 <= n)%Z by (subst n; lia).
  assert (0 <= m)%Z by (subst m; lia).
  destruct (Z.ltb_spec n 0) as [?|_]; [lia|].
  destruct (Z.ltb_spec (n + c) 0) as [?|_]; [lia|].
  replace (Z.to_nat (Z.min n (n + m))) with (List.length done)
    by (subst n; lia).
  rewrite skipn_app, skipn_all, Nat.sub_diag. simpl.
  destruct (Z.le_gt_cases c m) as [L|G].
  - f_equal. lia.
  - rewrite !firstn_all2; [reflexivity| |]; subst m n; lia.
Qed.

Lemma chunks_fuel {A} (f1 f2 n : nat) (l : list A) :
  (0 < n)%nat -> (List.length l <= f1)%nat -> (List.length l <= f2)%nat ->
  chunks f1 n l = chunks f2 n l.
Proof.
  intros N. revert f2 l. induction f1 as [|f1 IH]; intros f2 l L1 L2.
  - destruct l; [|simpl in L1; lia]. now destruct f2.
  - destruct f2 as [|f2]; [destruct l; [reflexivity|simpl in L2; lia]|].
    destruct l as [|a l]; [reflexivity|].
    cbn [chunks]. f_equal.
    apply IH; rewrite length_skipn; cbn [List.length] in *; lia.
Qed.

Lemma batchLoop_step (fuel : nat) (i : Z)
    (results : list DomainCheckResult) (log : list Event) :
  batchLoop world name tlds c d (S fuel) i results log =
  if (i <? Z.of_nat (List.length tlds))%Z then
    match promiseAll
            (mapFrom (fun k t => checkDomain (world k) (name ++ "." ++ t))
                     (List.length results) (slice tlds i (i + c))) with
    | Throw m => Some (Throw m)
    | Ok batchResults =>
        batchLoop world name tlds c d fuel (i + c) (results ++ batchResults)
          (if (i + c <? Z.of_nat (List.length tlds))%Z
           then (log ++ [Window (slice tlds i (i + c))]) ++ [Sleep d]
           else log ++ [Window (slice tlds i (i + c))])
    end
  else Some (Ok (results, log)).
Proof. reflexivity. Qed.

(** The loop from any point on: with enough fuel it ends, having checked
    the remaining TLDs in order, window by window, with a pause between
    two windows. *)
Lemma chunks_nonempty {A} (fuel n : nat) (l : list A) :
  l <> [] -> chunks (S fuel) n l = firstn n l :: chunks fuel n (skipn n l).
Proof. destruct l; [congruence|reflexivity]. Qed.

Lemma chunks_nil {A} (fuel n : nat) : chunks fuel n (@nil A) = [].
Proof. now destruct fuel. Qed.

Lemma batchLoop_from (fuel : nat) :
  forall (done rest : list string)
         (results : list DomainCheckResult) (log : list Event),
    tlds = done ++ rest ->
    List.length results = List.length done ->
    (List.length rest < fuel)%nat ->
    batchLoop world name tlds c d fuel (Z.of_nat (List.length done)) results log
    = Some (Ok (results ++ mapFrom V (List.length done) rest,
                log ++ paced d (chunks (List.length rest) (Z.to_nat c) rest))).
Proof.
  induction fuel as [|fuel IH]; intros done rest results log T R F; [lia|].
  rewrite batchLoop_step.
  assert (Len : Z.of_nat (List.length tlds)
                = (Z.of_nat (List.length done) + Z.of_nat (List.length rest))%Z)
    by (rewrite T, length_app; lia).
  destruct rest as [|t rest'].
  - destruct (Z.ltb_spec (Z.of_nat (List.length done)) (Z.of_nat (List.length tlds)))
      as [?|_]; [simpl in Len; lia|].
    simpl. now rewrite !app_nil_r.
  - remember (t :: rest') as l eqn:El.
    assert (Ne : l <> []) by (subst l; discriminate).
    assert (Ll : List.length l = S (List.length rest')) by (subst l; reflexivity).
    clear El.
    destruct (Z.ltb_spec (Z.of_nat (List.length done)) (Z.of_nat (List.length tlds)))
      as [_|?]; [|lia].
    rewrite (slice_window done l T), promiseAll_checks, R.
    set (n := Z.to_nat c).
    assert (N : (0 < n)%nat) by (subst n; lia).
    rewrite Ll, (chunks_nonempty _ _ Ne).
    destruct (Z.ltb_spec (Z.of_nat (List.length done) + c) (Z.of_nat (List.length tlds)))
      as [Lt|Ge].
    + (* more TLDs are left after this window *)
      assert (Ln : (n < List.length l)%nat) by (subst n; lia).
      assert (Lf : List.length (firstn n l) = n) by (rewrite length_firstn; lia).
      assert (Ls : List.length (skipn n l) = (List.length l - n)%nat)
        by apply length_skipn.
      replace (Z.of_nat (List.length done) + c)%Z
        with (Z.of_nat (List.length (done ++ firstn n l)))
        by (rewrite length_app, Lf; subst n; lia).
      rewrite (IH (done ++ firstn n l) (skipn n l)).
      * f_equal. f_equal. f_equal.
        -- rewrite <- app_assoc. f_equal.
           rewrite length_app, <- mapFrom_app. now rewrite firstn_skipn.
        -- rewrite <- !app_assoc. f_equal.
           fold n.
           rewrite (chunks_fuel (f1 := List.length (skipn n l))
                      (f2 := List.length rest') (skipn n l) N) by lia.
           destruct (List.length rest') as [|m] eqn:Em; [lia|].
           destruct (skipn n l) as [|x sk] eqn:Es; [simpl in Ls; lia|].
           reflexivity.
      * rewrite <- app_assoc, firstn_skipn. exact T.
      * rewrite !length_app, mapFrom_length. lia.
      * lia.
    + (* this was the last window *)
      assert (Ln : (List.length l <= n)%nat) by (subst n; lia).
      rewrite firstn_all2 by exact Ln.
      rewrite skipn_all2 by exact Ln.
      rewrite chunks_nil.
      destruct fuel as [|fuel]; [lia|].
      rewrite batchLoop_step.
      destruct (Z.ltb_spec (Z.of_nat (List.length done) + c) (Z.of_nat (List.length tlds)))
        as [?|_]; [lia|].
      reflexivity.
Qed.

End BatchFacts.

(** ** checkAlternativeTlds *)

(** With a positive window size the call returns: the verdicts of the
    TLDs in the order asked, and the windows with a pause between two. *)
Lemma checkAlternativeTlds_returns
    (fuel : nat) (world : World) (domainName : string)
    (tlds : option (list string)) (options : Options) :
  let tl := orDefault tlds POPULAR_TLDS in
  let c := orDefault (concurrency options) DEFAULT_CONCURRENCY in
  let d := orDefault (batchDelay options) BATCH_DELAY_MS in
  (0 < c)%Z ->
  (List.length tl < fuel)%nat ->
  checkAlternativeTlds fuel world domainName tlds options
  = Some (Ok ({| originalDomain := baseName domainName;
                 results :=
                   mapFrom (fun k t =>
                              verdict (world k) (baseName domainName ++ "." ++ t))
                           0 tl |},
              paced d (chunks (List.length tl) (Z.to_nat c) tl))).
Proof.
  intros tl c d C F. unfold checkAlternativeTlds. fold tl c d.
  assert (B : (if includes dot domainName
               then p <- parseDomain domainName ;; Ok (parsedName p)
               else Ok domainName) = Ok (baseName domainName)).
  { unfold baseName. destruct (includes dot domainName) eqn:E.
    - destruct (parseDomain_dot domainName E) as (p & P & _).
      now rewrite P.
    - reflexivity. }
  rewrite B.
  change 0%Z with (Z.of_nat (List.length (@nil string))).
  rewrite (batchLoop_from world (baseName domainName) d C (tlds := tl) [] tl [] []
             eq_refl eq_refl F).
  reflexivity.
Qed.

(** With a window size of zero or less the index never moves on: nothing
    is returned, however long the loop runs. *)
Lemma batchLoop_stuck (world : World) (name : string) (tlds : list string)
    (c d : Z) (fuel : nat) :
  (c <= 0)%Z -> tlds <> [] ->
  forall i results log, (i <= 0)%Z ->
    batchLoop world name tlds c d fuel i results log = None.
Proof.
  intros C N. induction fuel as [|fuel IH]; intros i results log I;
    [reflexivity|].
  rewrite batchLoop_step.
  destruct (Z.ltb_spec i (Z.of_nat (List.length tlds))) as [_|G].
  - rewrite promiseAll_checks. apply IH. lia.
  - destruct tlds; [congruence|simpl in G; lia].
Qed.

Lemma mapFrom_nth_error {A B} (f : nat -> A -> B) (l : list A) :
  forall start k a,
    nth_error l k = Some a ->
    nth_error (mapFrom f start l) k = Some (f (start + k)%nat a).
Proof.
  induction l as [|x l IH]; intros start k a H.
  - destruct k; discriminate.
  - destruct k as [|k]; simpl in *.
    + inversion H. now rewrite Nat.add_0_r.
    + rewrite (IH (S start) k a H). f_equal. f_equal. lia.
Qed.

Lemma mapFrom_map {A B C} (f : nat -> A -> B) (g : B -> C) (h : A -> C)
    (l : list A) :
  (forall k a, g (f k a) = h a) ->
  forall start, map g (mapFrom f start l) = map h l.
Proof.
  intros H. induction l as [|x l IH]; intros start; simpl; [reflexivity|].
  now rewrite H, IH.
Qed.

(** C7: for every base name and every list of TLDs, [checkAlternativeTlds]
    (run with a positive window size, as the default is) returns one
    result per TLD, in the order of the TLDs: the [k]-th result is what
    [checkDomain] returns for the name with the [k]-th TLD, and its
    [domain] is that name.tld, normalized. *)
Theorem checkAlternativeTlds_one_result_per_tld
    (fuel : nat) (world : World) (domainName : string)
    (tlds : list string) (options : Options) :
  (0 < orDefault (concurrency options) DEFAULT_CONCURRENCY)%Z ->
  (List.length tlds < fuel)%nat ->
  exists res log,
    checkAlternativeTlds fuel world domainName (Some tlds) options
    = Some (Ok (res, log))
    /\ originalDomain res = baseName domainName
    /\ List.length (results res) = List.length tlds
    /\ map domain (results res)
       = map (fun t => normalize (baseName domainName ++ "." ++ t)) tlds
    /\ forall k t, nth_error tlds k = Some t ->
         exists r, nth_error (results res) k = Some r
                   /\ checkDomain (world k) (baseName domainName ++ "." ++ t) = Ok r.
Proof.
  intros C F.
  pose proof (@checkAlternativeTlds_returns fuel world domainName (Some tlds)
                options C F) as R.
  cbn [orDefault] in R.
  eexists. eexists. split; [exact R|].
  cbn [results originalDomain]. split; [reflexivity|].
  split; [apply mapFrom_length|]. split.
  - apply mapFrom_map. intros k a. apply verdict_domain.
  - intros k t H. eexists. split.
    + apply (mapFrom_nth_error _ tlds 0 k H).
    + apply checkDomain_dot, includes_append_dot.
Qed.

Lemma checkAlternativeTlds_one_result_per_tld_witness :
  exists res log,
    checkAlternativeTlds 4 (fun _ => freeNet) "foo" (Some ["com"; "net"; "org"])
      defaultOptions
    = Some (Ok (res, log))
    /\ originalDomain res = "foo"
    /\ List.length (results res) = 3%nat
    /\ map domain (results res) = ["foo.com"; "foo.net"; "foo.org"]
    /\ forall k t, nth_error ["com"; "net"; "org"] k = Some t ->
         exists r, nth_error (results res) k = Some r
                   /\ checkDomain freeNet ("foo" ++ "." ++ t) = Ok r.
Proof.
  apply (@checkAlternativeTlds_one_result_per_tld
           4 (fun _ => freeNet) "foo" ["com"; "net"; "org"] defaultOptions).
  - reflexivity.
  - simpl. lia.
Defined.

(** The example of the specification, on any network. *)
Example checkAlternativeTlds_foo (world : World) :
  exists res log,
    checkAlternativeTlds 4 world "foo" (Some ["com"; "net"; "org"]) defaultOptions
    = Some (Ok (res, log))
    /\ map domain (results res) = ["foo.com"; "foo.net"; "foo.org"]
    /\ map tld (results res) = ["com"; "net"; "org"].
Proof.
  pose proof (@checkAlternativeTlds_returns 4 world "foo"
                (Some ["com"; "net"; "org"]) defaultOptions) as R.
  cbn [orDefault] in R.
  eexists. eexists. split; [apply R; [reflexivity|simpl; lia]|].
  cbn [results mapFrom map]. rewrite !verdict_domain, !verdict_tld.
  split; reflexivity.
Qed.

(** The build does it: with seven TLDs and a window of three, three
    windows run one after the other, of three, three and one TLD, and
    the loop pauses twice: after the first and after the second window,
    not after the third. *)
Theorem checkAlternativeTlds_seven_by_three
    (fuel : nat) (world : World) (domainName : string)
    (tlds : list string) (delay : option Z) :
  List.length tlds = 7%nat ->
  (7 < fuel)%nat ->
  let d := orDefault delay BATCH_DELAY_MS in
  exists res log,
    checkAlternativeTlds fuel world domainName (Some tlds)
      {| concurrency := Some 3%Z; batchDelay := delay |}
    = Some (Ok (res, log))
    /\ log = [Window (firstn 3 tlds); Sleep d;
              Window (firstn 3 (skipn 3 tlds)); Sleep d;
              Window (skipn 6 tlds)]
    /\ windowSizes log = [3; 3; 1]%nat
    /\ List.length (filter isSleep log) = 2%nat
    /\ firstn 3 tlds ++ firstn 3 (skipn 3 tlds) ++ skipn 6 tlds = tlds.
Proof.
  intros L F d.
  pose proof (@checkAlternativeTlds_returns fuel world domainName (Some tlds)
                {| concurrency := Some 3%Z; batchDelay := delay |}) as R.
  cbn [orDefault concurrency batchDelay] in R. fold d in R.
  rewrite L in R. specialize (R eq_refl F).
  do 7 (destruct tlds as [|? tlds]; [discriminate L|]).
  destruct tlds; [|discriminate L].
  eexists. eexists. split; [exact R|].
  repeat split.
Qed.

Lemma checkAlternativeTlds_seven_by_three_witness :
  exists res log,
    checkAlternativeTlds 8 (fun _ => freeNet) "foo"
      (Some ["com"; "net"; "org"; "io"; "co"; "dev"; "app"])
      {| concurrency := Some 3%Z; batchDelay := None |}
    = Some (Ok (res, log))
    /\ log = [Window ["com"; "net"; "org"]; Sleep 1500;
              Window ["io"; "co"; "dev"]; Sleep 1500;
              Window ["app"]]
    /\ windowSizes log = [3; 3; 1]%nat
    /\ List.length (filter isSleep log) = 2%nat
    /\ ["com"; "net"; "org"] ++ ["io"; "co"; "dev"] ++ ["app"]
       = ["com"; "net"; "org"; "io"; "co"; "dev"; "app"].
Proof.
  apply (@checkAlternativeTlds_seven_by_three
           8 (fun _ => freeNet) "foo"
           ["com"; "net"; "org"; "io"; "co"; "dev"; "app"] None).
  - reflexivity.
  - lia.
Defined.

(** The batch loop of the TypeScript source forms the same windows and
    never pauses. *)
Lemma TsSource_batchLoop_no_pause (world : World) (name : string)
    (tlds : list string) (c : Z) (fuel : nat) :
  forall i results log results' log',
    TsSource.batchLoop world name tlds c fuel i results log
    = Some (Ok (results', log')) ->
    filter isSleep log' = filter isSleep log.
Proof.
  induction fuel as [|fuel IH]; intros i results log results' log' H;
    [discriminate|].
  cbn [TsSource.batchLoop] in H.
  destruct (i <? Z.of_nat (List.length tlds))%Z.
  - destruct (TsSource.promiseAll _) as [[batchResults|m]|];
      try discriminate.
    rewrite (IH _ _ _ _ _ H), filter_app. simpl. apply app_nil_r.
  - now inversion H.
Qed.

Example TsSource_seven_by_three :
  option_map (fun r => match r with
                       | Ok (_, log) => log
                       | Throw _ => []
                       end)
    (TsSource.checkAlternativeTlds 8 (fun _ => freeNet) "foo"
       (Some ["com"; "net"; "org"; "io"; "co"; "dev"; "app"]) (Some 3%Z))
  = Some [Window ["com"; "net"; "org"]; Window ["io"; "co"; "dev"];
          Window ["app"]].
Proof. vm_compute. reflexivity. Qed.

(** ** getSuggestedTlds *)

Section SetOf.

Let step (seen : list string) (x : string) : list string :=
  if existsb (String.eqb x) seen then seen else seen ++ [x].

Lemma existsb_eqb_In (x : string) (l : list string) :
  existsb (String.eqb x) l = true <-> In x l.
Proof.
  rewrite existsb_exists. split.
  - intros (y & I & E). apply String.eqb_eq in E. now subst.
  - intros I. exists x. split; [exact I|apply String.eqb_refl].
Qed.

Lemma fold_step_NoDup (l seen : list string) :
  NoDup seen -> NoDup (fold_left step l seen).
Proof.
  revert seen. induction l as [|x l IH]; intros seen N; simpl; [exact N|].
  apply IH. unfold step.
  destruct (existsb (String.eqb x) seen) eqn:E; [exact N|].
  apply NoDup_app; [exact N|repeat constructor; intros []|].
  intros y I [<-|[]].
  apply existsb_eqb_In in I. congruence.
Qed.

Lemma fold_step_In (l seen : list string) (y : string) :
  In y (fold_left step l seen) <-> In y seen \/ In y l.
Proof.
  revert seen. induction l as [|x l IH]; intros seen; simpl; [tauto|].
  rewrite IH. unfold step.
  destruct (existsb (String.eqb x) seen) eqn:E.
  - apply existsb_eqb_In in E. intuition (subst; auto).
  - rewrite in_app_iff. simpl. tauto.
Qed.

(** A [Set] built from a list has every element of the list once. *)
Lemma setOf_NoDup (l : list string) : NoDup (setOf l).
Proof. apply fold_step_NoDup. constructor. Qed.

Lemma setOf_In (l : list string) (y : string) : In y (setOf l) <-> In y l.
Proof. unfold setOf. fold step. rewrite fold_step_In. simpl. tauto. Qed.

End SetOf.

(** C9: [getSuggestedTlds("all")] is the union of the general, the tech
    and the country list without repetition.  The three categories
    return the three lists of the source, of 16, 10 and 15 TLDs; "all"
    has no TLD twice, its TLDs are exactly those of [POPULAR_TLDS],
    [TECH_TLDS] and [COUNTRY_TLDS], so every element of
    [getSuggestedTlds("tech")], of the general and of the country list
    occurs in it; it is the general list, the four tech TLDs that are
    not general, and the country list, 35 TLDs. *)
Theorem getSuggestedTlds_all :
  getSuggestedTlds (Some "general") = POPULAR_TLDS
  /\ getSuggestedTlds (Some "tech") = TECH_TLDS
  /\ getSuggestedTlds (Some "country") = COUNTRY_TLDS
  /\ POPULAR_TLDS
     = ["com"; "net"; "org"; "io"; "co"; "dev"; "app"; "ai"; "xyz"; "me";
        "info"; "biz"; "tech"; "online"; "site"; "cloud"]
  /\ TECH_TLDS
     = ["io"; "dev"; "app"; "ai"; "tech"; "cloud"; "software"; "systems";
        "digital"; "code"]
  /\ COUNTRY_TLDS
     = ["uk"; "de"; "fr"; "nl"; "es"; "it"; "pl"; "ru"; "jp"; "cn"; "au";
        "ca"; "us"; "in"; "br"]
  /\ List.length (getSuggestedTlds (Some "general")) = 16%nat
  /\ List.length (getSuggestedTlds (Some "tech")) = 10%nat
  /\ List.length (getSuggestedTlds (Some "country")) = 15%nat
  /\ NoDup (getSuggestedTlds (Some "all"))
  /\ (forall t, In t (getSuggestedTlds (Some "all")) <->
                In t POPULAR_TLDS \/ In t TECH_TLDS \/ In t COUNTRY_TLDS)
  /\ incl (getSuggestedTlds (Some "tech")) (getSuggestedTlds (Some "all"))
  /\ incl (getSuggestedTlds (Some "general")) (getSuggestedTlds (Some "all"))
  /\ incl (getSuggestedTlds (Some "country")) (getSuggestedTlds (Some "all"))
  /\ getSuggestedTlds (Some "all")
     = POPULAR_TLDS ++ ["software"; "systems"; "digital"; "code"] ++ COUNTRY_TLDS
  /\ List.length (getSuggestedTlds (Some "all")) = 35%nat.
Proof.
  assert (G : getSuggestedTlds (Some "general") = POPULAR_TLDS) by reflexivity.
  assert (T : getSuggestedTlds (Some "tech") = TECH_TLDS) by reflexivity.
  assert (C : getSuggestedTlds (Some "country") = COUNTRY_TLDS) by reflexivity.
  assert (A : getSuggestedTlds (Some "all")
              = setOf (POPULAR_TLDS ++ TECH_TLDS ++ COUNTRY_TLDS)) by reflexivity.
  assert (U : forall t, In t (setOf (POPULAR_TLDS ++ TECH_TLDS ++ COUNTRY_TLDS)) <->
                        In t POPULAR_TLDS \/ In t TECH_TLDS \/ In t COUNTRY_TLDS)
    by (intros t; now rewrite setOf_In, !in_app_iff).
  rewrite G, T, C, A.
  split; [reflexivity|]. split; [reflexivity|]. split; [reflexivity|].
  split; [reflexivity|]. split; [reflexivity|]. split; [reflexivity|].
  split; [reflexivity|]. split; [reflexivity|]. split; [reflexivity|].
  split; [apply setOf_NoDup|]. split; [exact U|].
  split; [intros t I; apply (proj2 (U t)); right; left; exact I|].
  split; [intros t I; apply (proj2 (U t)); left; exact I|].
  split; [intros t I; apply (proj2 (U t)); right; right; exact I|].
  split; vm_compute; reflexivity.
Qed.

(** The lists of the other categories, and the one without a category. *)
Example getSuggestedTlds_sizes :
  List.length (getSuggestedTlds (Some "general")) = 16%nat
  /\ List.length (getSuggestedTlds (Some "tech")) = 10%nat
  /\ List.length (getSuggestedTlds (Some "country")) = 15%nat
  /\ getSuggestedTlds None = POPULAR_TLDS
  /\ getSuggestedTlds (Some "other") = POPULAR_TLDS.
Proof. repeat split. Qed.

(** ** A note on empty error descriptions

    The engine recognizes a failed probe by the truthiness of its error
    description.  A rejection whose message is the empty string therefore
    counts as a probe without error, here as a DNS answer "no record". *)
Example empty_description_is_no_error :
  let net := {| dnsResolve := fun _ =>
                  SettlesAt 40 (Rejected {| code := Some "ESERVFAIL"; message := EmptyString |});
                lookupAsync := fun _ => NeverSettles |} in
  dnsError (checkDns net "example.com") = Some EmptyString
  /\ truthy (dnsError (checkDns net "example.com")) = false
  /\ checkDomain net "example.com" =
     Ok {| domain := "example.com"; tld := "com"; available := true;
           method := dns; confidence := medium;
           details := Some "No DNS records found (may still be registered but inactive)";
           error := None |}.
Proof. repeat split. Qed.

(** * Further properties of the engine *)

(** ** parseDomain: what the parts are *)

Lemma split_parts_no_sep (sep : ascii) (s : string) :
  Forall (fun p => includes sep p = false) (split sep s).
Proof.
  induction s as [|c s IH]; cbn [split].
  - repeat constructor.
  - destruct (Ascii.eqb c sep) eqn:E.
    + constructor; [reflexivity|exact IH].
    + destruct (split sep s) as [|p ps]; [repeat constructor; simpl; now rewrite E|].
      inversion IH as [|? ? Hp Hps]; subst.
      constructor; [simpl; now rewrite E, Hp|exact Hps].
Qed.

Lemma last_no_sep (sep : ascii) (s : string) :
  includes sep (last (split sep s) EmptyString) = false.
Proof.
  pose proof (split_parts_no_sep sep s) as F.
  induction (split sep s) as [|p ps IH]; [reflexivity|].
  inversion F as [|? ? Hp Hps]; subst.
  destruct ps as [|q qs]; [exact Hp|]. exact (IH Hps).
Qed.

Lemma lowerUnit_idempotent (c : ascii) : lowerUnit (lowerUnit c) = lowerUnit c.
Proof. destruct c as [[] [] [] [] [] [] [] []]; reflexivity. Qed.

Lemma lowerUnit_whiteSpace (c : ascii) :
  isWhiteSpace (lowerUnit c) = isWhiteSpace c.
Proof. destruct c as [[] [] [] [] [] [] [] []]; reflexivity. Qed.

Lemma toLowerCase_idempotent (s : string) :
  toLowerCase (toLowerCase s) = toLowerCase s.
Proof.
  induction s as [|c s IH]; simpl; [reflexivity|].
  now rewrite lowerUnit_idempotent, IH.
Qed.

Lemma toLowerCase_trimStart (s : string) :
  toLowerCase (trimStart s) = trimStart (toLowerCase s).
Proof.
  induction s as [|c s IH]; simpl; [reflexivity|].
  rewrite lowerUnit_whiteSpace. now destruct (isWhiteSpace c).
Qed.

Lemma toLowerCase_trimEnd (s : string) :
  toLowerCase (trimEnd s) = trimEnd (toLowerCase s).
Proof.
  induction s as [|c s IH]; simpl; [reflexivity|].
  rewrite <- IH, lowerUnit_whiteSpace.
  destruct (trimEnd s); simpl; [now destruct (isWhiteSpace c)|reflexivity].
Qed.

Lemma trimEnd_idempotent (s : string) : trimEnd (trimEnd s) = trimEnd s.
Proof.
  induction s as [|c s IH]; simpl; [reflexivity|].
  destruct (trimEnd s) as [|x t] eqn:E.
  - destruct (isWhiteSpace c) eqn:W; simpl; [reflexivity|now rewrite W].
  - cbn [trimEnd] in *. now rewrite IH.
Qed.

Lemma trimStart_startsClean (s : string) : startsClean (trimStart s).
Proof.
  induction s as [|c s IH]; simpl; [exact I|].
  destruct (isWhiteSpace c) eqn:W; [exact IH|exact W].
Qed.

Lemma trimEnd_startsClean (s : string) :
  startsClean s -> startsClean (trimEnd s).
Proof.
  destruct s as [|c s]; simpl; [trivial|].
  intros W. destruct (trimEnd s); [now rewrite W|exact W].
Qed.

Lemma trimStart_clean (s : string) : startsClean s -> trimStart s = s.
Proof. destruct s as [|c s]; simpl; [reflexivity|now intros ->]. Qed.

Lemma trim_idempotent (s : string) : trim (trim s) = trim s.
Proof.
  unfold trim.
  rewrite (trimStart_clean (trimEnd (trimStart s)))
    by apply trimEnd_startsClean, trimStart_startsClean.
  apply trimEnd_idempotent.
Qed.

Lemma normalize_idempotent (s : string) : normalize (normalize s) = normalize s.
Proof.
  unfold normalize, trim.
  rewrite toLowerCase_trimEnd, toLowerCase_trimStart, toLowerCase_idempotent.
  apply trim_idempotent.
Qed.

(** X1: when [parseDomain] returns, name, a dot and TLD put together are
    the argument lower-cased and trimmed, and the TLD itself has no dot:
    it is what follows the last dot. *)
Theorem parseDomain_reassembles (s : string) (p : ParsedDomain) :
  parseDomain s = Ok p ->
  (parsedName p ++ "." ++ parsedTld p)%string = trim (toLowerCase s)
  /\ includes dot (parsedTld p) = false.
Proof.
  intros P.
  destruct (parseDomain_dot s (parseDomain_Ok_dot s P)) as (q & Q & F & T).
  rewrite P in Q. inversion Q; subst q.
  split; [exact F|]. rewrite T. apply last_no_sep.
Qed.

Lemma parseDomain_reassembles_witness :
  ("www.example" ++ "." ++ "com")%string = trim (toLowerCase "  Www.Example.COM ")
  /\ includes dot "com" = false.
Proof.
  apply (parseDomain_reassembles "  Www.Example.COM "
           (p := {| parsedName := "www.example"; parsedTld := "com" |})).
  reflexivity.
Defined.

Lemma parseDomain_normalize (s : string) (p : ParsedDomain) :
  parseDomain s = Ok p -> parseDomain (normalize s) = Ok p.
Proof.
  intros P. unfold parseDomain in *. fold (normalize s) in P.
  fold (normalize (normalize s)). rewrite normalize_idempotent.
  destruct (List.length (split dot (normalize s)) <? 2)%nat; [discriminate|].
  exact P.
Qed.

(** X2: parsing is stable: the name and the TLD that [parseDomain] found,
    joined by a dot, parse into the same name and TLD again. *)
Theorem parseDomain_reparse (s : string) (p : ParsedDomain) :
  parseDomain s = Ok p ->
  parseDomain (parsedName p ++ "." ++ parsedTld p) = Ok p.
Proof.
  intros P.
  destruct (parseDomain_dot s (parseDomain_Ok_dot s P)) as (q & Q & F & _).
  rewrite P in Q. inversion Q; subst q.
  rewrite F. now apply parseDomain_normalize.
Qed.

Lemma parseDomain_reparse_witness :
  parseDomain ("www.example" ++ "." ++ "com")
  = Ok {| parsedName := "www.example"; parsedTld := "com" |}.
Proof.
  apply (parseDomain_reparse "  Www.Example.COM "
           (p := {| parsedName := "www.example"; parsedTld := "com" |})).
  reflexivity.
Defined.

(** ** checkDomain: the argument and the fields of the result *)

(** X3: [checkDomain] returns a result exactly for the arguments with a
    dot: for those it never throws, whatever the two services do, since
    both probes turn every failure into a probe result. *)
Theorem checkDomain_returns_exactly_with_dot (net : Net) (s : string) :
  (exists r, checkDomain net s = Ok r) <-> includes dot s = true.
Proof.
  split.
  - intros [r H]. destruct (includes dot s) eqn:E; [reflexivity|].
    unfold checkDomain in H. rewrite (parseDomain_no_dot s E) in H.
    discriminate.
  - intros H. exists (verdict net s). apply (checkDomain_dot net s H).
Qed.

(** X4: letter case and surrounding white space of the argument do not
    matter: two arguments with a dot that are equal once lower-cased and
    trimmed get the same answer on the same network. *)
Theorem checkDomain_normalized_input (net : Net) (s1 s2 : string) :
  includes dot s1 = true ->
  trim (toLowerCase s1) = trim (toLowerCase s2) ->
  checkDomain net s1 = checkDomain net s2.
Proof.
  intros D E.
  assert (D2 : includes dot s2 = true).
  { rewrite <- includes_normalize. unfold normalize. rewrite <- E.
    fold (normalize s1). now rewrite includes_normalize. }
  rewrite (checkDomain_dot net s1 D), (checkDomain_dot net s2 D2).
  unfold verdict, normalize. now rewrite E.
Qed.

Lemma checkDomain_normalized_input_witness :
  checkDomain liveNet " Example.COM" = checkDomain liveNet "example.com".
Proof.
  apply (checkDomain_normalized_input liveNet " Example.COM" "example.com");
    reflexivity.
Defined.

(** X5: the [domain] of a result is the argument lower-cased and trimmed
    (lower-casing or trimming it again changes nothing), its [tld] has no
    dot, and [domain] ends in a dot followed by [tld]. *)
Theorem checkDomain_result_names
    (net : Net) (s : string) (r : DomainCheckResult) :
  checkDomain net s = Ok r ->
  domain r = trim (toLowerCase s)
  /\ toLowerCase (domain r) = domain r
  /\ trim (domain r) = domain r
  /\ includes dot (tld r) = false
  /\ exists name, domain r = (name ++ "." ++ tld r)%string.
Proof.
  intros C. pose proof (checkDomain_Ok _ _ C) as ->.
  assert (D : includes dot s = true).
  { destruct (includes dot s) eqn:D; [reflexivity|].
    unfold checkDomain in C. rewrite (parseDomain_no_dot s D) in C.
    discriminate. }
  destruct (parseDomain_dot s D) as (p & P & F & T).
  rewrite verdict_domain, verdict_tld. fold (normalize s).
  split; [reflexivity|]. split; [|split; [|split]].
  - unfold normalize, trim.
    now rewrite toLowerCase_trimEnd, toLowerCase_trimStart, toLowerCase_idempotent.
  - unfold normalize. apply trim_idempotent.
  - apply last_no_sep.
  - exists (parsedName p). now rewrite <- T, F.
Qed.

Lemma checkDomain_result_names_witness :
  domain (verdict liveNet " Example.COM") = trim (toLowerCase " Example.COM")
  /\ toLowerCase (domain (verdict liveNet " Example.COM"))
     = domain (verdict liveNet " Example.COM")
  /\ trim (domain (verdict liveNet " Example.COM"))
     = domain (verdict liveNet " Example.COM")
  /\ includes dot (tld (verdict liveNet " Example.COM")) = false
  /\ exists name,
       domain (verdict liveNet " Example.COM")
       = (name ++ "." ++ tld (verdict liveNet " Example.COM"))%string.
Proof.
  apply (checkDomain_result_names liveNet " Example.COM"
           (r := verdict liveNet " Example.COM")).
  reflexivity.
Defined.

(** ** checkDomain: confidence, method and verdict *)

Lemma reconcile_low (full t : string) (d : DnsResult) (w : WhoisResult) :
  confidence (reconcile full t d w) = low <->
  truthy (dnsError d) = true /\ truthy (whoisError w) = true.
Proof.
  reconcile_cases d w; split; try intros [? ?]; try intros ?;
    try discriminate; auto.
Qed.

(** X6: a result has [confidence = low] exactly when both probes
    failed; such a result is never [available] and it is the only kind
    that carries an [error]. *)
Theorem checkDomain_low_iff_both_failed
    (net : Net) (s : string) (r : DomainCheckResult) :
  checkDomain net s = Ok r ->
  (confidence r = low <->
   truthy (dnsError (checkDns net (normalize s))) = true
   /\ truthy (whoisError (checkWhois net (normalize s))) = true)
  /\ (confidence r = low -> available r = false)
  /\ (confidence r = low <-> error r <> None).
Proof.
  intros C. pose proof (checkDomain_Ok _ _ C) as ->. unfold verdict.
  set (d := checkDns net (normalize s)).
  set (w := checkWhois net (normalize s)).
  generalize (last (split dot (normalize s)) EmptyString) as t.
  generalize (normalize s) as full. intros full t.
  split; [apply reconcile_low|].
  reconcile_cases d w; repeat split; intros; try discriminate; congruence.
Qed.

Lemma checkDomain_low_iff_both_failed_witness :
  (confidence (verdict downNet "example.com") = low <->
   truthy (dnsError (checkDns downNet "example.com")) = true
   /\ truthy (whoisError (checkWhois downNet "example.com")) = true)
  /\ (confidence (verdict downNet "example.com") = low ->
      available (verdict downNet "example.com") = false)
  /\ (confidence (verdict downNet "example.com") = low <->
      error (verdict downNet "example.com") <> None).
Proof.
  apply (checkDomain_low_iff_both_failed downNet "example.com"
           (r := verdict downNet "example.com")).
  reflexivity.
Defined.

(** X7: [method] names the probe that worked when exactly one did:
    [dns] exactly when only the WHOIS probe failed, [whois] exactly when
    only the DNS probe failed. *)
Theorem checkDomain_method_single
    (net : Net) (s : string) (r : DomainCheckResult) :
  checkDomain net s = Ok r ->
  (method r = dns <->
   truthy (dnsError (checkDns net (normalize s))) = false
   /\ truthy (whoisError (checkWhois net (normalize s))) = true)
  /\ (method r = whois <->
      truthy (dnsError (checkDns net (normalize s))) = true
      /\ truthy (whoisError (checkWhois net (normalize s))) = false).
Proof.
  intros C. pose proof (checkDomain_Ok _ _ C) as ->. unfold verdict.
  set (d := checkDns net (normalize s)).
  set (w := checkWhois net (normalize s)).
  generalize (last (split dot (normalize s)) EmptyString) as t.
  generalize (normalize s) as full. intros full t.
  reconcile_cases d w; repeat split;
    try intros [? ?]; try intros ?; try discriminate; auto.
Qed.

Lemma checkDomain_method_single_witness :
  (method (verdict whoisDownNet "example.com") = dns <->
   truthy (dnsError (checkDns whoisDownNet "example.com")) = false
   /\ truthy (whoisError (checkWhois whoisDownNet "example.com")) = true)
  /\ (method (verdict whoisDownNet "example.com") = whois <->
      truthy (dnsError (checkDns whoisDownNet "example.com")) = true
      /\ truthy (whoisError (checkWhois whoisDownNet "example.com")) = false).
Proof.
  apply (checkDomain_method_single whoisDownNet "example.com"
           (r := verdict whoisDownNet "example.com")).
  reflexivity.
Defined.

(** X8: a domain is reported as available only without an address
    record, and never against a WHOIS answer that was classified: if the
    WHOIS probe did not fail, it said available.  With [confidence =
    high] on top, both probes worked and agree. *)
Theorem checkDomain_available_sound
    (net : Net) (s : string) (r : DomainCheckResult) :
  checkDomain net s = Ok r ->
  available r = true ->
  dnsExists (checkDns net (normalize s)) = false
  /\ (truthy (whoisError (checkWhois net (normalize s))) = false ->
      whoisAvailable (checkWhois net (normalize s)) = true)
  /\ (confidence r = high ->
      truthy (dnsError (checkDns net (normalize s))) = false
      /\ truthy (whoisError (checkWhois net (normalize s))) = false
      /\ whoisAvailable (checkWhois net (normalize s)) = true).
Proof.
  intros C. pose proof (checkDomain_Ok _ _ C) as ->. unfold verdict.
  pose proof (checkDns_exists_no_error net (normalize s)) as NE.
  set (d := checkDns net (normalize s)) in *.
  set (w := checkWhois net (normalize s)).
  generalize (last (split dot (normalize s)) EmptyString) as t.
  generalize (normalize s) as full. intros full t.
  unfold reconcile.
  destruct (dnsExists d) eqn:E.
  - rewrite (NE eq_refl). cbn.
    destruct (truthy (whoisError w)), (whoisAvailable w); cbn; discriminate.
  - destruct (truthy (dnsError d)), (truthy (whoisError w)) eqn:?,
      (whoisAvailable w) eqn:?; cbn; intros A; try discriminate;
      repeat split; intros; try discriminate; auto.
Qed.

Lemma checkDomain_available_sound_witness :
  dnsExists (checkDns freeNet "example.com") = false
  /\ (truthy (whoisError (checkWhois freeNet "example.com")) = false ->
      whoisAvailable (checkWhois freeNet "example.com") = true)
  /\ (confidence (verdict freeNet "example.com") = high ->
      truthy (dnsError (checkDns freeNet "example.com")) = false
      /\ truthy (whoisError (checkWhois freeNet "example.com")) = false
      /\ whoisAvailable (checkWhois freeNet "example.com") = true).
Proof.
  apply (checkDomain_available_sound freeNet "example.com"
           (r := verdict freeNet "example.com")); reflexivity.
Defined.

(** ** The probes *)

Lemma withTimeout_late {A} (p : promise A) (ms : Z) (msg : string) :
  late p ms -> withTimeout p ms msg = Rejected (newError msg).
Proof.
  destruct p as [t o|]; simpl; [|reflexivity].
  intros L. destruct (Z.ltb_spec t ms); [lia|reflexivity].
Qed.

(** X9: the DNS probe reports a record exactly when the resolver
    answered with records before the 5000 ms timer; a lookup that is
    late is reported as "timeout", and the text of the timer's own error
    never shows up as the description. *)
Theorem checkDns_outcomes (net : Net) (s : string) :
  (dnsExists (checkDns net s) = true <->
   exists t records,
     dnsResolve net s = SettlesAt t (Fulfilled records) /\ (t < 5000)%Z)
  /\ (late (dnsResolve net s) 5000 ->
      checkDns net s = {| dnsExists := false; dnsError := Some "timeout" |})
  /\ dnsError (checkDns net s) <> Some "DNS lookup timed out".
Proof.
  unfold checkDns. split; [split|split].
  - destruct (dnsResolve net s) as [t [a|e]|] eqn:E; cbn [withTimeout];
      unfold DNS_TIMEOUT_MS.
    + destruct (Z.ltb_spec t 5000); cbn; [eauto|discriminate].
    + destruct (Z.ltb_spec t 5000); cbn; [|discriminate].
      destruct (codeIs e "ENOTFOUND" || codeIs e "ENODATA"); [discriminate|].
      destruct (message e =? "DNS lookup timed out")%string; discriminate.
    + cbn. discriminate.
  - intros (t & a & E & L). rewrite E. cbn [withTimeout].
    unfold DNS_TIMEOUT_MS. destruct (Z.ltb_spec t 5000); [reflexivity|lia].
  - intros L. now rewrite (@withTimeout_late _ _ _ _ L).
  - destruct (withTimeout _ _ _) as [a|e]; [discriminate|].
    destruct (codeIs e "ENOTFOUND" || codeIs e "ENODATA"); [discriminate|].
    destruct (message e =? "DNS lookup timed out")%string eqn:M; [discriminate|].
    intros H. inversion H as [H1]. rewrite H1 in M. discriminate.
Qed.

(** X10: the WHOIS probe gives details exactly when it gives no error,
    an error always goes with [available = false], and a lookup that is
    not answered before the 10000 ms timer is the error "WHOIS lookup
    timed out". *)
Theorem checkWhois_outcomes (net : Net) (s : string) :
  (whoisError (checkWhois net s) = None <-> whoisDetails (checkWhois net s) <> None)
  /\ (whoisError (checkWhois net s) <> None ->
      whoisAvailable (checkWhois net s) = false)
  /\ (late (lookupAsync net s) 10000 ->
      checkWhois net s =
      {| whoisAvailable := false; whoisDetails := None;
         whoisError := Some "WHOIS lookup timed out" |}).
Proof.
  unfold checkWhois. split; [|split].
  - destruct (withTimeout _ _ _) as [text|e]; cbn.
    + unfold classifyWhois.
      destruct (some availablePatterns text && negb (some takenPatterns text));
        [split; [discriminate|reflexivity]|].
      destruct (some takenPatterns text); split; try discriminate; reflexivity.
    + split; [discriminate|congruence].
  - destruct (withTimeout _ _ _) as [text|e]; cbn; [|reflexivity].
    unfold classifyWhois.
    destruct (some availablePatterns text && negb (some takenPatterns text));
      [cbn; congruence|].
    destruct (some takenPatterns text); cbn; congruence.
  - intros L. now rewrite (@withTimeout_late _ _ _ _ L).
Qed.

Lemma checkWhois_outcomes_witness :
  checkWhois silentNet "example.com" =
  {| whoisAvailable := false; whoisDetails := None;
     whoisError := Some "WHOIS lookup timed out" |}.
Proof.
  apply (checkWhois_outcomes silentNet "example.com"). exact I.
Defined.

Lemma checkDns_outcomes_witness :
  checkDns silentNet "example.com"
  = {| dnsExists := false; dnsError := Some "timeout" |}.
Proof.
  apply (checkDns_outcomes silentNet "example.com"). simpl. lia.
Defined.

(** X11: when neither service answers within its time limit,
    [checkDomain] still returns for every argument with a dot, and the
    result names both timeouts. *)
Theorem checkDomain_both_timed_out (net : Net) (s : string) :
  includes dot s = true ->
  late (dnsResolve net (normalize s)) DNS_TIMEOUT_MS ->
  late (lookupAsync net (normalize s)) WHOIS_TIMEOUT_MS ->
  exists r, checkDomain net s = Ok r
            /\ available r = false /\ method r = both /\ confidence r = low
            /\ details r = Some "Both DNS and WHOIS checks failed"
            /\ error r = Some "DNS: timeout, WHOIS: WHOIS lookup timed out".
Proof.
  intros D L1 L2. exists (verdict net s).
  split; [apply (checkDomain_dot net s D)|].
  unfold verdict, checkDns, checkWhois.
  rewrite (@withTimeout_late _ _ _ _ L1), (@withTimeout_late _ _ _ _ L2).
  repeat split.
Qed.

Lemma checkDomain_both_timed_out_witness :
  exists r, checkDomain silentNet "example.com" = Ok r
            /\ available r = false /\ method r = both /\ confidence r = low
            /\ details r = Some "Both DNS and WHOIS checks failed"
            /\ error r = Some "DNS: timeout, WHOIS: WHOIS lookup timed out".
Proof.
  apply (checkDomain_both_timed_out silentNet "example.com");
    [reflexivity|simpl; unfold DNS_TIMEOUT_MS; lia|exact I].
Defined.

(** ** The patterns of the classifier *)

Lemma matchHere_lits (ml : bool) (w w' rest : string) (prev : option ascii) :
  sameIgnoringCase w w' = true ->
  matchHere true ml (lits w) prev (w' ++ rest) = true.
Proof.
  revert w' prev. induction w as [|c w IH]; intros w' prev H.
  - reflexivity.
  - destruct w' as [|x w']; [discriminate|].
    cbn [sameIgnoringCase] in H. apply andb_prop in H as [Hc Hw].
    cbn [lits matchHere]. cbn [append]. rewrite Hc. cbn [andb].
    apply IH, Hw.
Qed.

Lemma search_lits (w w' before after : string) (prev : option ascii) :
  sameIgnoringCase w w' = true ->
  search (re_i (lits w)) prev (before ++ w' ++ after) = true.
Proof.
  intros H. revert prev. induction before as [|x b IH]; intros prev.
  - cbn [append]. destruct (w' ++ after)%string eqn:E; cbn [search];
      rewrite <- E; cbn [re_i atoms ignoreCase multiline];
      now rewrite (matchHere_lits false w w' after prev H).
  - cbn [append search]. rewrite IH. apply orb_true_r.
Qed.

(** X12: a WHOIS text that has one of the words "registrar:", "creation
    date:", "registered on:", "name server:", "registrant:" anywhere, in
    any letter case, is classified as registered, whatever else it says
    (also when it says "no match"). *)
Theorem classifyWhois_taken_keyword (w w' before after : string) :
  In w takenKeywords ->
  sameIgnoringCase w w' = true ->
  classifyWhois (before ++ w' ++ after) =
  {| whoisAvailable := false;
     whoisDetails := Some "WHOIS shows domain is registered";
     whoisError := None |}.
Proof.
  intros I H.
  assert (T : some takenPatterns (before ++ w' ++ after) = true).
  { unfold some. apply existsb_exists. exists (re_i (lits w)). split.
    - unfold takenKeywords in I. cbn [In] in I.
      repeat (destruct I as [<-|I]; [cbn; tauto|]). destruct I.
    - apply search_lits, H. }
  unfold classifyWhois. rewrite T.
  now destruct (some availablePatterns (before ++ w' ++ after)).
Qed.

Lemma classifyWhois_taken_keyword_witness :
  classifyWhois ("No match for domain." ++ lf ++ "Registrar: Example Corp") =
  {| whoisAvailable := false;
     whoisDetails := Some "WHOIS shows domain is registered";
     whoisError := None |}.
Proof.
  apply (@classifyWhois_taken_keyword "registrar:" "Registrar:"
           ("No match for domain." ++ lf) " Example Corp").
  - simpl. tauto.
  - reflexivity.
Defined.

(** Likewise for the available side: a WHOIS text that has one of the phrases "no match", "not
    found", "no data found", "no entries found", "domain not found", "no
    object found", "nothing found" anywhere, in any letter case, is
    classified as not registered unless a taken-pattern matches it. *)
Theorem classifyWhois_available_keyword (w w' before after : string) :
  In w availableKeywords ->
  sameIgnoringCase w w' = true ->
  some takenPatterns (before ++ w' ++ after) = false ->
  classifyWhois (before ++ w' ++ after) =
  {| whoisAvailable := true;
     whoisDetails := Some "WHOIS shows domain is not registered";
     whoisError := None |}.
Proof.
  intros I H T.
  assert (A : some availablePatterns (before ++ w' ++ after) = true).
  { unfold some. apply existsb_exists. exists (re_i (lits w)). split.
    - unfold availableKeywords in I. cbn [In] in I.
      repeat (destruct I as [<-|I]; [cbn; tauto|]). destruct I.
    - apply search_lits, H. }
  unfold classifyWhois. now rewrite A, T.
Qed.

Lemma classifyWhois_available_keyword_witness :
  classifyWhois ("% " ++ "NOT FOUND" ++ lf) =
  {| whoisAvailable := true;
     whoisDetails := Some "WHOIS shows domain is not registered";
     whoisError := None |}.
Proof.
  apply (@classifyWhois_available_keyword "not found" "NOT FOUND" "% " lf).
  - simpl. tauto.
  - reflexivity.
  - reflexivity.
Defined.

(** ** The windows of the batch loop *)

Section Chunks.

Variable A : Type.
Variable n : nat.
Hypothesis n_pos : (0 < n)%nat.

Lemma concat_chunks (fuel : nat) :
  forall l : list A, (List.length l <= fuel)%nat -> concat (chunks fuel n l) = l.
Proof.
  induction fuel as [|fuel IH]; intros l L.
  - destruct l; [reflexivity|simpl in L; lia].
  - destruct l as [|a l]; [reflexivity|].
    rewrite chunks_nonempty by discriminate. cbn [concat].
    rewrite IH; [apply firstn_skipn|].
    rewrite length_skipn. cbn [List.length] in *. lia.
Qed.

Lemma chunks_sizes (fuel : nat) :
  forall l : list A,
    Forall (fun w => w <> [] /\ (List.length w <= n)%nat) (chunks fuel n l).
Proof.
  induction fuel as [|fuel IH]; intros l; [constructor|].
  destruct l as [|a l]; [constructor|].
  rewrite chunks_nonempty by discriminate.
  constructor; [|apply IH]. split.
  - destruct n; [lia|discriminate].
  - rewrite length_firstn. lia.
Qed.

Lemma chunks_full (fuel : nat) :
  forall l : list A,
    Forall (fun w => List.length w = n) (removelast (chunks fuel n l)).
Proof.
  induction fuel as [|fuel IH]; intros l; [constructor|].
  destruct l as [|a l]; [constructor|].
  rewrite chunks_nonempty by discriminate.
  specialize (IH (skipn n (a :: l))).
  destruct (chunks fuel n (skipn n (a :: l))) as [|w ws] eqn:E; [constructor|].
  change (removelast (firstn n (a :: l) :: w :: ws))
    with (firstn n (a :: l) :: removelast (w :: ws)).
  constructor; [|exact IH].
  rewrite length_firstn.
  destruct (Nat.le_gt_cases n (List.length (a :: l))) as [?|G]; [lia|].
  rewrite skipn_all2 in E by lia. rewrite chunks_nil in E. discriminate.
Qed.

Lemma chunks_length (fuel : nat) :
  forall l : list A,
    (List.length l <= fuel)%nat ->
    List.length (chunks fuel n l) = ((List.length l + n - 1) / n)%nat.
Proof.
  induction fuel as [|fuel IH]; intros l L.
  - destruct l; [|simpl in L; lia]. cbn [chunks List.length].
    symmetry. apply Nat.div_small. lia.
  - destruct l as [|a l].
    + cbn [chunks List.length]. symmetry. apply Nat.div_small. lia.
    + rewrite chunks_nonempty by discriminate. cbn [List.length] in *.
      rewrite IH by (rewrite length_skipn; cbn [List.length]; lia).
      rewrite length_skipn. cbn [List.length].
      destruct (Nat.le_gt_cases (S (List.length l)) n) as [Le|Gt].
      * replace (S (List.length l) - n)%nat with 0%nat by lia.
        rewrite (Nat.div_small (0 + n - 1) n) by lia.
        apply (Nat.div_unique _ n 1 (List.length l)); lia.
      * replace (S (List.length l) + n - 1)%nat
          with ((S (List.length l) - n + n - 1) + 1 * n)%nat by lia.
        rewrite Nat.div_add by lia. lia.
Qed.

End Chunks.

Lemma windowsOf_paced (d : Z) (ws : list (list string)) :
  windowsOf (paced d ws) = ws.
Proof.
  induction ws as [|w ws IH]; [reflexivity|].
  destruct ws as [|w' ws]; [reflexivity|].
  change (paced d (w :: w' :: ws)) with (Window w :: Sleep d :: paced d (w' :: ws)).
  cbn [windowsOf flat_map app]. f_equal. exact IH.
Qed.

Lemma sleeps_paced (d : Z) (ws : list (list string)) :
  filter isSleep (paced d ws) = repeat (Sleep d) (List.length ws - 1).
Proof.
  induction ws as [|w ws IH]; [reflexivity|].
  destruct ws as [|w' ws]; [reflexivity|].
  change (paced d (w :: w' :: ws)) with (Window w :: Sleep d :: paced d (w' :: ws)).
  cbn [filter isSleep]. rewrite IH.
  replace (List.length (w :: w' :: ws) - 1)%nat
    with (S (List.length (w' :: ws) - 1)) by (cbn [List.length]; lia).
  reflexivity.
Qed.

(** X13: with a window size [c] above zero, the loop cuts the TLDs into
    consecutive windows: put together they are the list asked for, every
    window but the last has exactly [c] TLDs and the last between 1 and
    [c], there are ceil(length / c) of them, and between two windows,
    and nowhere else, the loop sleeps the batch delay. *)
Theorem checkAlternativeTlds_windows
    (fuel : nat) (world : World) (domainName : string)
    (tlds : list string) (options : Options) :
  let c := orDefault (concurrency options) DEFAULT_CONCURRENCY in
  let d := orDefault (batchDelay options) BATCH_DELAY_MS in
  (0 < c)%Z ->
  (List.length tlds < fuel)%nat ->
  exists res log,
    checkAlternativeTlds fuel world domainName (Some tlds) options
    = Some (Ok (res, log))
    /\ log = paced d (windowsOf log)
    /\ concat (windowsOf log) = tlds
    /\ Forall (fun w => w <> [] /\ (Z.of_nat (List.length w) <= c)%Z) (windowsOf log)
    /\ Forall (fun w => Z.of_nat (List.length w) = c) (removelast (windowsOf log))
    /\ List.length (windowsOf log)
       = ((List.length tlds + Z.to_nat c - 1) / Z.to_nat c)%nat
    /\ filter isSleep log = repeat (Sleep d) (List.length (windowsOf log) - 1).
Proof.
  intros c d C F.
  pose proof (@checkAlternativeTlds_returns fuel world domainName (Some tlds)
                options C F) as R.
  cbn [orDefault] in R. fold c d in R.
  assert (N : (0 < Z.to_nat c)%nat) by lia.
  eexists. eexists. split; [exact R|].
  rewrite windowsOf_paced.
  split; [reflexivity|].
  split; [apply concat_chunks; [exact N|lia]|].
  split.
  { eapply Forall_impl; [|apply (chunks_sizes N)].
    intros w [W1 W2]. split; [exact W1|lia]. }
  split.
  { eapply Forall_impl; [|apply (chunks_full N)].
    intros w W. cbv beta in W. lia. }
  split; [apply chunks_length; [exact N|lia]|].
  apply sleeps_paced.
Qed.

Lemma checkAlternativeTlds_windows_witness :
  exists res log,
    checkAlternativeTlds 6 (fun _ => freeNet) "foo"
      (Some ["com"; "net"; "org"; "io"; "co"])
      {| concurrency := Some 2%Z; batchDelay := Some 100%Z |}
    = Some (Ok (res, log))
    /\ log = paced 100 (windowsOf log)
    /\ concat (windowsOf log) = ["com"; "net"; "org"; "io"; "co"]
    /\ Forall (fun w => w <> [] /\ (Z.of_nat (List.length w) <= 2)%Z) (windowsOf log)
    /\ Forall (fun w => Z.of_nat (List.length w) = 2%Z) (removelast (windowsOf log))
    /\ List.length (windowsOf log) = 3%nat
    /\ filter isSleep log = repeat (Sleep 100) (List.length (windowsOf log) - 1).
Proof.
  apply (@checkAlternativeTlds_windows 6 (fun _ => freeNet) "foo"
           ["com"; "net"; "org"; "io"; "co"]
           {| concurrency := Some 2%Z; batchDelay := Some 100%Z |}).
  - reflexivity.
  - simpl. lia.
Defined.

Lemma baseName_name (domainName : string) :
  (if includes dot domainName
   then p <- parseDomain domainName ;; Ok (parsedName p)
   else Ok domainName) = Ok (baseName domainName).
Proof.
  unfold baseName. destruct (includes dot domainName) eqn:E; [|reflexivity].
  destruct (parseDomain_dot domainName E) as (p & P & _). now rewrite P.
Qed.

(** X14: with a window size of zero or less the call never returns for a
    TLD list that is not empty, however long it runs; for the empty list
    it returns at once, with no result, no window and no pause. *)
Theorem checkAlternativeTlds_window_not_positive
    (world : World) (domainName : string)
    (tlds : list string) (options : Options) :
  (orDefault (concurrency options) DEFAULT_CONCURRENCY <= 0)%Z ->
  (tlds <> [] ->
   forall fuel,
     checkAlternativeTlds fuel world domainName (Some tlds) options = None)
  /\ (tlds = [] ->
      forall fuel,
        checkAlternativeTlds (S fuel) world domainName (Some tlds) options
        = Some (Ok ({| originalDomain := baseName domainName; results := [] |}, []))).
Proof.
  intros C. split.
  - intros N fuel. unfold checkAlternativeTlds. rewrite baseName_name.
    cbn [orDefault]. rewrite (@batchLoop_stuck world _ tlds _ _ fuel C N); [reflexivity|lia].
  - intros -> fuel. unfold checkAlternativeTlds. rewrite baseName_name.
    reflexivity.
Qed.

Lemma checkAlternativeTlds_window_not_positive_witness :
  checkAlternativeTlds 1000 (fun _ => freeNet) "foo" (Some ["com"; "net"])
    {| concurrency := Some 0%Z; batchDelay := None |} = None.
Proof.
  apply (@checkAlternativeTlds_window_not_positive (fun _ => freeNet) "foo"
           ["com"; "net"] {| concurrency := Some 0%Z; batchDelay := None |}).
  - simpl. lia.
  - discriminate.
Defined.

(** X15: window size and delay shape the schedule only: two runs over
    the same network with different positive window sizes and different
    delays return the same [AlternativeTldResult]. *)
Theorem checkAlternativeTlds_results_independent
    (fuel : nat) (world : World) (domainName : string)
    (tlds : list string) (o1 o2 : Options) :
  (0 < orDefault (concurrency o1) DEFAULT_CONCURRENCY)%Z ->
  (0 < orDefault (concurrency o2) DEFAULT_CONCURRENCY)%Z ->
  (List.length tlds < fuel)%nat ->
  exists res log1 log2,
    checkAlternativeTlds fuel world domainName (Some tlds) o1 = Some (Ok (res, log1))
    /\ checkAlternativeTlds fuel world domainName (Some tlds) o2 = Some (Ok (res, log2)).
Proof.
  intros C1 C2 F.
  pose proof (@checkAlternativeTlds_returns fuel world domainName (Some tlds)
                o1 C1 F) as R1.
  pose proof (@checkAlternativeTlds_returns fuel world domainName (Some tlds)
                o2 C2 F) as R2.
  cbn [orDefault] in R1, R2.
  eexists. eexists. eexists. split; [exact R1|exact R2].
Qed.

Lemma checkAlternativeTlds_results_independent_witness :
  exists res log1 log2,
    checkAlternativeTlds 4 (fun _ => freeNet) "foo" (Some ["com"; "net"; "org"])
      {| concurrency := Some 1%Z; batchDelay := Some 0%Z |} = Some (Ok (res, log1))
    /\ checkAlternativeTlds 4 (fun _ => freeNet) "foo" (Some ["com"; "net"; "org"])
         defaultOptions = Some (Ok (res, log2)).
Proof.
  apply (@checkAlternativeTlds_results_independent 4 (fun _ => freeNet) "foo"
           ["com"; "net"; "org"]
           {| concurrency := Some 1%Z; batchDelay := Some 0%Z |} defaultOptions).
  - reflexivity.
  - reflexivity.
  - simpl. lia.
Defined.

(** ** The TypeScript source against the build *)

Lemma TsSource_probes_agree (net : Net) (full : string) :
  answersInTime net full ->
  TsSource.checkDns net full = Some (checkDns net full)
  /\ TsSource.checkWhois net full = Some (checkWhois net full).
Proof.
  intros [(t & o & D & Lt & M) (t' & o' & W & Lt')].
  unfold TsSource.checkDns, TsSource.checkWhois, checkDns, checkWhois.
  rewrite D, W. cbn [TsSource.await withTimeout].
  destruct (Z.ltb_spec t DNS_TIMEOUT_MS); [|lia].
  destruct (Z.ltb_spec t' WHOIS_TIMEOUT_MS); [|lia].
  split.
  - destruct o as [a|e]; [reflexivity|].
    destruct (codeIs e "ENOTFOUND" || codeIs e "ENODATA"); [reflexivity|].
    destruct (String.eqb_spec (message e) "DNS lookup timed out");
      [contradiction|reflexivity].
  - destruct o' as [a|e]; reflexivity.
Qed.

(** X16: for a domain whose lookups are both answered within the time
    limits of the build (and whose resolver error, if any, is not worded
    like the timer's), [checkDomain] of the TypeScript source returns
    exactly what [checkDomain] of the build returns. *)
Theorem TsSource_checkDomain_agrees (net : Net) (s : string) :
  answersInTime net (normalize s) ->
  TsSource.checkDomain net s = Some (checkDomain net s).
Proof.
  intros T. unfold TsSource.checkDomain, checkDomain.
  destruct (includes dot s) eqn:D.
  - destruct (parseDomain_dot s D) as (p & P & F & _).
    rewrite P. cbn [bind]. rewrite F.
    destruct (@TsSource_probes_agree net (normalize s) T) as [-> ->]. reflexivity.
  - now rewrite (parseDomain_no_dot s D).
Qed.

Lemma TsSource_checkDomain_agrees_witness :
  TsSource.checkDomain freeNet "Example.com"
  = Some (checkDomain freeNet "Example.com").
Proof.
  apply (@TsSource_checkDomain_agrees freeNet "Example.com").
  split.
  - exists 20%Z. eexists. split; [reflexivity|]. split; [reflexivity|].
    discriminate.
  - exists 250%Z. eexists. split; reflexivity.
Defined.

(** X17: [checkDomain] of the TypeScript source fails to return exactly
    when its argument has a dot and one of the two lookups is never
    answered; the build answers such a call through its timers. *)
Theorem TsSource_checkDomain_hangs (net : Net) (s : string) :
  TsSource.checkDomain net s = None <->
  includes dot s = true
  /\ (dnsResolve net (normalize s) = NeverSettles
      \/ lookupAsync net (normalize s) = NeverSettles).
Proof.
  unfold TsSource.checkDomain.
  destruct (includes dot s) eqn:D.
  - destruct (parseDomain_dot s D) as (p & P & F & _).
    rewrite P, F.
    unfold TsSource.checkDns, TsSource.checkWhois.
    destruct (dnsResolve net (normalize s)) as [t [a|e]|];
      destruct (lookupAsync net (normalize s)) as [t' [a'|e']|];
      cbn [TsSource.await];
      repeat match goal with
             | |- context [if ?b then _ else _] => destruct b
             end;
      split; try discriminate; try (intros [_ [?|?]]; discriminate); auto.
  - rewrite (parseDomain_no_dot s D). split; [discriminate|intros [? _]; discriminate].
Qed.

(** X18: the batch loop of the TypeScript source never pauses: a log it
    returns consists of windows only. *)
Theorem TsSource_checkAlternativeTlds_no_pause
    (fuel : nat) (world : World) (domainName : string)
    (tlds : option (list string)) (concurrency : option Z)
    (res : AlternativeTldResult) (log : list Event) :
  TsSource.checkAlternativeTlds fuel world domainName tlds concurrency
  = Some (Ok (res, log)) ->
  filter isSleep log = [].
Proof.
  unfold TsSource.checkAlternativeTlds. rewrite baseName_name.
  destruct (TsSource.batchLoop _ _ _ _ _ _ _ _) as [[[r l]|m]|] eqn:B;
    try discriminate.
  intros H. inversion H; subst.
  apply (TsSource_batchLoop_no_pause _ _ _ _ _ _ _ _ B).
Qed.

Lemma TsSource_checkAlternativeTlds_no_pause_witness :
  filter isSleep [Window ["com"; "net"; "org"]; Window ["io"; "co"; "dev"];
                  Window ["app"]] = [].
Proof.
  apply (@TsSource_checkAlternativeTlds_no_pause 8 (fun _ => freeNet) "foo"
           (Some ["com"; "net"; "org"; "io"; "co"; "dev"; "app"]) (Some 3%Z)
           {| originalDomain := "foo";
              results := mapFrom (fun _ t => verdict freeNet ("foo" ++ "." ++ t)) 0
                           ["com"; "net"; "org"; "io"; "co"; "dev"; "app"] |}).
  vm_compute. reflexivity.
Defined.

(** * The tool server *)

(** ** generateVariations *)

Lemma occ_app (c : ascii) (a b : string) :
  occ c (a ++ b) = (occ c a + occ c b)%nat.
Proof.
  induction a as [|x a IH]; cbn [append occ]; [reflexivity|].
  rewrite IH. lia.
Qed.

Lemma setOf_from (l seen : list string) :
  NoDup (seen ++ l) ->
  fold_left
    (fun seen x => if existsb (String.eqb x) seen then seen else seen ++ [x])
    l seen = seen ++ l.
Proof.
  revert seen. induction l as [|x l IH]; intros seen N; cbn [fold_left].
  - now rewrite app_nil_r.
  - assert (X : existsb (String.eqb x) seen = false).
    { destruct (existsb (String.eqb x) seen) eqn:E; [|reflexivity].
      apply existsb_eqb_In in E.
      apply NoDup_remove_2 in N. exfalso. apply N.
      apply in_or_app. now left. }
    rewrite X, IH; rewrite <- app_assoc; [reflexivity|exact N].
Qed.

(** A list without repetition goes through a [Set] unchanged. *)
Lemma setOf_NoDup_id (l : list string) : NoDup l -> setOf l = l.
Proof. intros N. unfold setOf. now rewrite (setOf_from l []). Qed.

Lemma keepLowerAlnum_allChars (s : string) :
  allChars Mcp.isLowerAlnum (Mcp.keepLowerAlnum s) = true.
Proof.
  induction s as [|c s IH]; cbn [Mcp.keepLowerAlnum]; [reflexivity|].
  destruct (Mcp.isLowerAlnum c) eqn:E; [|exact IH].
  cbn [allChars]. now rewrite E, IH.
Qed.

Lemma allChars_app (P : ascii -> bool) (a b : string) :
  allChars P (a ++ b) = allChars P a && allChars P b.
Proof.
  induction a as [|x a IH]; cbn [append allChars]; [reflexivity|].
  now rewrite IH, andb_assoc.
Qed.

(** Two names built from one base with affixes of different letters
    differ. *)
Ltac by_letter H c :=
  let H' := fresh in
  pose proof (f_equal (occ c) H) as H';
  repeat rewrite occ_app in H'; cbn in H'; lia.

Ltac differ H :=
  first [ by_letter H "g"%char | by_letter H "t"%char | by_letter H "u"%char
        | by_letter H "m"%char | by_letter H "h"%char | by_letter H "o"%char
        | by_letter H "a"%char | by_letter H "q"%char | by_letter H "i"%char
        | by_letter H "b"%char | by_letter H "l"%char | by_letter H "n"%char
        | by_letter H "e"%char | by_letter H "r"%char | by_letter H "y"%char
        | by_letter H "s"%char | by_letter H "p"%char | by_letter H "w"%char ].

Lemma variations_NoDup (base : string) :
  NoDup (([base] ++ map (fun p => (p ++ base)%string) Mcp.prefixes)
         ++ map (fun s => (base ++ s)%string) Mcp.suffixes).
Proof.
  cbn [Mcp.prefixes Mcp.suffixes map app].
  repeat (constructor;
          [cbn [In]; intros H;
           repeat (destruct H as [H|H]; [differ H|]); exact H|]).
  constructor.
Qed.

Lemma generateVariations_shape (keyword : string) :
  let base := Mcp.keepLowerAlnum (toLowerCase keyword) in
  Mcp.generateVariations keyword
  = base :: map (fun p => (p ++ base)%string) Mcp.prefixes
         ++ map (fun s => (base ++ s)%string) Mcp.suffixes
  /\ List.length (Mcp.generateVariations keyword) = 13%nat
  /\ NoDup (Mcp.generateVariations keyword)
  /\ Forall (fun v => allChars Mcp.isLowerAlnum v = true)
            (Mcp.generateVariations keyword).
Proof.
  intros base.
  assert (E : Mcp.generateVariations keyword
              = base :: map (fun p => (p ++ base)%string) Mcp.prefixes
                     ++ map (fun s => (base ++ s)%string) Mcp.suffixes).
  { unfold Mcp.generateVariations. fold base.
    now rewrite (setOf_NoDup_id (variations_NoDup base)). }
  split; [exact E|]. rewrite E. split; [reflexivity|]. split.
  - apply (variations_NoDup base).
  - pose proof (keepLowerAlnum_allChars (toLowerCase keyword)) as B.
    fold base in B.
    cbn [Mcp.prefixes Mcp.suffixes map app].
    repeat (constructor; [rewrite ?allChars_app, ?B; reflexivity|]).
    constructor.
Qed.

(** X19: [generateVariations] always returns thirteen names that differ
    from each other: the base (the keyword lower-cased, with everything
    but a-z and 0-9 dropped), the base behind each of the six prefixes,
    and the base in front of each of the six suffixes, in this order;
    every name is made of a-z and 0-9 only. *)
Theorem generateVariations_thirteen (keyword : string) :
  let base := Mcp.keepLowerAlnum (toLowerCase keyword) in
  Mcp.generateVariations keyword
  = base :: map (fun p => (p ++ base)%string) Mcp.prefixes
         ++ map (fun s => (base ++ s)%string) Mcp.suffixes
  /\ List.length (Mcp.generateVariations keyword) = 13%nat
  /\ NoDup (Mcp.generateVariations keyword)
  /\ Forall (fun v => allChars Mcp.isLowerAlnum v = true)
            (Mcp.generateVariations keyword).
Proof. exact (generateVariations_shape keyword). Qed.

(** A keyword without a letter or digit still counts as a keyword: its
    base is empty and the affixes alone are the names. *)
Example generateVariations_no_alnum :
  Mcp.generateVariations "?!" =
  [EmptyString; "get"; "try"; "use"; "my"; "the"; "go";
   "app"; "hq"; "io"; "hub"; "labs"; "now"].
Proof. reflexivity. Qed.

(** ** Names and TLDs of the server are domains as they stand *)

Lemma isLowerAlnum_plain (c : ascii) :
  Mcp.isLowerAlnum c = true ->
  lowerUnit c = c /\ isWhiteSpace c = false /\ Ascii.eqb c dot = false.
Proof.
  destruct c as [[] [] [] [] [] [] [] []]; vm_compute; intros H;
    try discriminate; repeat split.
Qed.

Lemma alnum_no_dot (s : string) :
  allChars Mcp.isLowerAlnum s = true -> includes dot s = false.
Proof.
  induction s as [|c s IH]; cbn [allChars includes]; [reflexivity|].
  intros H. apply andb_prop in H as [Hc Hs].
  destruct (isLowerAlnum_plain c Hc) as (_ & _ & ->). now rewrite IH.
Qed.

(** Lower-case letters, digits and dots. *)
Lemma toLowerCase_plain (a t : string) :
  allChars Mcp.isLowerAlnum a = true -> allChars Mcp.isLowerAlnum t = true ->
  toLowerCase (a ++ "." ++ t) = (a ++ "." ++ t)%string.
Proof.
  intros A T.
  assert (L : forall s, allChars Mcp.isLowerAlnum s = true -> toLowerCase s = s).
  { induction s as [|c s IH]; cbn [allChars toLowerCase]; [reflexivity|].
    intros H. apply andb_prop in H as [Hc Hs].
    destruct (isLowerAlnum_plain c Hc) as (-> & _). now rewrite IH. }
  induction a as [|c a IH]; cbn [append toLowerCase].
  - change (lowerUnit ".") with "."%char. now rewrite (L t T).
  - cbn [allChars] in A. apply andb_prop in A as [Hc Ha].
    destruct (isLowerAlnum_plain c Hc) as (-> & _).
    f_equal. apply IH, Ha.
Qed.

Lemma trimEnd_no_space (s : string) :
  allChars (fun c => negb (isWhiteSpace c)) s = true -> trimEnd s = s.
Proof.
  induction s as [|c s IH]; cbn [allChars trimEnd]; [reflexivity|].
  intros H. apply andb_prop in H as [Hc Hs]. rewrite (IH Hs).
  destruct s; [|reflexivity].
  now destruct (isWhiteSpace c).
Qed.

Lemma trim_plain (a t : string) :
  allChars Mcp.isLowerAlnum a = true -> allChars Mcp.isLowerAlnum t = true ->
  trim (a ++ "." ++ t) = (a ++ "." ++ t)%string.
Proof.
  intros A T.
  assert (N : forall s, allChars Mcp.isLowerAlnum s = true ->
                        allChars (fun c => negb (isWhiteSpace c)) s = true).
  { induction s as [|c s IH]; cbn [allChars]; [reflexivity|].
    intros H. apply andb_prop in H as [Hc Hs].
    destruct (isLowerAlnum_plain c Hc) as (_ & -> & _). now rewrite IH. }
  assert (P : allChars (fun c => negb (isWhiteSpace c)) (a ++ "." ++ t) = true).
  { rewrite allChars_app, (N a A). cbn [append allChars andb].
    now rewrite (N t T). }
  unfold trim. rewrite trimStart_clean.
  - apply trimEnd_no_space, P.
  - destruct (a ++ "." ++ t)%string as [|c r]; [exact I|].
    cbn [allChars] in P. apply andb_prop in P as [Hc _].
    cbn. now destruct (isWhiteSpace c).
Qed.

(** What follows the last dot is determined by the string. *)
Lemma last_dot_unique (a1 a2 t1 t2 : string) :
  includes dot t1 = false -> includes dot t2 = false ->
  (a1 ++ "." ++ t1 = a2 ++ "." ++ t2)%string ->
  a1 = a2 /\ t1 = t2.
Proof.
  intros T1 T2. revert a2.
  induction a1 as [|c a1 IH]; intros a2 E.
  - destruct a2 as [|x a2]; cbn [append] in E.
    + inversion E. now split.
    + inversion E as [[Hx Ht]]. subst.
      pose proof (includes_append_dot a2 t2) as X. cbn [append] in X.
      congruence.
  - destruct a2 as [|x a2]; cbn [append] in E.
    + inversion E as [[Hc Ht]]. subst.
      pose proof (includes_append_dot a1 t1) as X. cbn [append] in X.
      congruence.
    + inversion E as [[Hc Ht]]. subst.
      destruct (IH a2 Ht) as [-> ->]. now split.
Qed.

Lemma suggested_tlds_plain (purpose : option string) :
  Forall (fun t => allChars Mcp.isLowerAlnum t = true) (getSuggestedTlds purpose).
Proof.
  apply Forall_forall. apply forallb_forall.
  unfold getSuggestedTlds.
  repeat match goal with
         | |- context [if ?b then _ else _] => destruct b
         end; vm_compute; reflexivity.
Qed.

(** A name and a TLD made of a-z and 0-9 give a domain that the engine
    takes as it stands. *)
Lemma checkDomain_plain (net : Net) (v t : string) :
  allChars Mcp.isLowerAlnum v = true ->
  allChars Mcp.isLowerAlnum t = true ->
  exists r, checkDomain net (v ++ "." ++ t) = Ok r
            /\ domain r = (v ++ "." ++ t)%string
            /\ tld r = t.
Proof.
  intros V T. exists (verdict net (v ++ "." ++ t)).
  split; [apply checkDomain_dot, includes_append_dot|].
  assert (N : normalize (v ++ "." ++ t) = (v ++ "." ++ t)%string).
  { unfold normalize. now rewrite toLowerCase_plain, trim_plain. }
  rewrite verdict_domain, verdict_tld, N. split; [reflexivity|].
  destruct (parseDomain_dot (v ++ "." ++ t) (includes_append_dot v t))
    as (p & P & F & L).
  rewrite N in F, L. rewrite <- L.
  apply (last_dot_unique (parsedName p) v).
  - rewrite L. apply last_no_sep.
  - apply alnum_no_dot, T.
  - exact F.
Qed.

(** X20: every name of [generateVariations] with every TLD of
    [getSuggestedTlds] is checked under exactly that spelling: the name
    has no dot, so the batch keeps it whole, and the result for name.tld
    has this very [domain] and this [tld]. *)
Theorem variation_checked_as_spelled
    (net : Net) (keyword : string) (purpose : option string) (v t : string) :
  In v (Mcp.generateVariations keyword) ->
  In t (getSuggestedTlds purpose) ->
  baseName v = v
  /\ exists r, checkDomain net (baseName v ++ "." ++ t) = Ok r
               /\ domain r = (v ++ "." ++ t)%string
               /\ tld r = t.
Proof.
  intros Iv It.
  destruct (generateVariations_shape keyword) as (_ & _ & _ & F).
  pose proof (proj1 (Forall_forall _ _) F v Iv) as V. cbv beta in V.
  pose proof (proj1 (Forall_forall _ _) (suggested_tlds_plain purpose) t It) as T.
  cbv beta in T.
  assert (B : baseName v = v)
    by (unfold baseName; now rewrite (alnum_no_dot v V)).
  split; [exact B|]. rewrite B. apply (checkDomain_plain net v t V T).
Qed.

Lemma variation_checked_as_spelled_witness :
  baseName "getacme" = "getacme"
  /\ exists r, checkDomain freeNet (baseName "getacme" ++ "." ++ "io") = Ok r
               /\ domain r = "getacme.io"
               /\ tld r = "io".
Proof.
  apply (@variation_checked_as_spelled freeNet "Acme!" (Some "tech") "getacme" "io").
  - vm_compute. tauto.
  - vm_compute. tauto.
Defined.

(** ** The order of the suggestions *)

Unset Implicit Arguments.

Lemma leSuggestion_spec (a b : DomainCheckResult) :
  leSuggestion a b <->
  (Mcp.order (confidence a) < Mcp.order (confidence b))%Z
  \/ (confidence a = confidence b
      /\ (String.length (domain a) <= String.length (domain b))%nat).
Proof.
  unfold leSuggestion, Mcp.compareSuggestions.
  destruct (confidence a), (confidence b);
    cbn [Mcp.sameConfidence Mcp.order negb]; split; intros H;
    first [ left; lia
          | right; split; [reflexivity|lia]
          | destruct H as [H|[H1 H2]]; first [lia|discriminate] ].
Qed.

Lemma leSuggestion_total (a b : DomainCheckResult) :
  leSuggestion a b \/ leSuggestion b a.
Proof.
  rewrite !leSuggestion_spec.
  destruct (confidence a), (confidence b); cbn;
    try (left; left; lia); try (right; left; lia);
    destruct (Nat.le_ge_cases (String.length (domain a)) (String.length (domain b)));
    [left|right|left|right|left|right]; right; split; auto.
Qed.

Lemma leSuggestion_trans (a b c : DomainCheckResult) :
  leSuggestion a b -> leSuggestion b c -> leSuggestion a c.
Proof.
  rewrite !leSuggestion_spec.
  intros [H1|[E1 L1]] [H2|[E2 L2]].
  - left. lia.
  - left. rewrite <- E2. exact H1.
  - left. rewrite E1. exact H2.
  - right. split; [congruence|lia].
Qed.

Lemma insertSorted_perm (x : DomainCheckResult) (l : list DomainCheckResult) :
  Permutation (x :: l) (Mcp.insertSorted Mcp.compareSuggestions x l).
Proof.
  induction l as [|y l IH]; cbn [Mcp.insertSorted]; [apply Permutation_refl|].
  destruct (Mcp.compareSuggestions x y <=? 0)%Z; [apply Permutation_refl|].
  eapply perm_trans; [apply perm_swap|]. now apply perm_skip.
Qed.

Lemma insertSorted_sorted (x : DomainCheckResult) (l : list DomainCheckResult) :
  StronglySorted leSuggestion l ->
  StronglySorted leSuggestion (Mcp.insertSorted Mcp.compareSuggestions x l).
Proof.
  induction 1 as [|y l S IH F]; cbn [Mcp.insertSorted].
  - repeat constructor.
  - destruct (Z.leb_spec (Mcp.compareSuggestions x y) 0) as [Le|Gt].
    + constructor; [now constructor|].
      constructor; [exact Le|].
      eapply Forall_impl; [|exact F].
      intros z Hz. now apply (leSuggestion_trans x y z).
    + constructor; [exact IH|].
      assert (Lyx : leSuggestion y x).
      { destruct (leSuggestion_total x y) as [H|H]; [unfold leSuggestion in H; lia|exact H]. }
      apply (Permutation_Forall (insertSorted_perm x l)).
      now constructor.
Qed.

Lemma insertSorted_stable (x k : DomainCheckResult) (l : list DomainCheckResult) :
  filter (sameRank k) (Mcp.insertSorted Mcp.compareSuggestions x l)
  = filter (sameRank k) (x :: l).
Proof.
  induction l as [|y l IH]; cbn [Mcp.insertSorted]; [reflexivity|].
  destruct (Z.leb_spec (Mcp.compareSuggestions x y) 0) as [Le|Gt]; [reflexivity|].
  cbn [filter] in *. rewrite IH.
  destruct (sameRank k x) eqn:Kx, (sameRank k y) eqn:Ky; try reflexivity.
  exfalso. unfold sameRank, Mcp.compareSuggestions in *.
  apply andb_prop in Kx as [Cx Lx]. apply andb_prop in Ky as [Cy Ly].
  apply Nat.eqb_eq in Lx, Ly.
  destruct (confidence k), (confidence x), (confidence y);
    try discriminate; cbn in Gt; lia.
Qed.

Lemma sort_facts (l : list DomainCheckResult) :
  StronglySorted leSuggestion (Mcp.sort Mcp.compareSuggestions l)
  /\ Permutation l (Mcp.sort Mcp.compareSuggestions l)
  /\ forall k, filter (sameRank k) (Mcp.sort Mcp.compareSuggestions l)
               = filter (sameRank k) l.
Proof.
  induction l as [|x l (S & P & T)]; cbn [Mcp.sort].
  - repeat split; constructor.
  - split; [now apply insertSorted_sorted|]. split.
    + eapply perm_trans; [apply perm_skip, P|apply insertSorted_perm].
    + intros k. rewrite insertSorted_stable. cbn [filter]. now rewrite T.
Qed.

Lemma leSuggestion_order (a b : DomainCheckResult) :
  leSuggestion a b -> suggestionOrder a b.
Proof.
  intros H. apply leSuggestion_spec in H. unfold suggestionOrder.
  destruct (confidence a), (confidence b); cbn [Mcp.order] in H;
    destruct H as [H|[E H]]; try discriminate; try lia; exact I.
Qed.

Lemma sameRank_sameKey (a b : DomainCheckResult) : sameRank a b = sameKey a b.
Proof.
  unfold sameRank, sameKey.
  destruct (confidence a), (confidence b); reflexivity.
Qed.

Lemma StronglySorted_weaken {A} (R S : A -> A -> Prop) (l : list A) :
  (forall a b, R a b -> S a b) -> StronglySorted R l -> StronglySorted S l.
Proof.
  intros W. induction 1 as [|x l H IH F]; constructor; [exact IH|].
  eapply Forall_impl; [|exact F]. intros b. apply W.
Qed.

(** X21: sorting with the comparator of [suggest_domains] puts every
    result of confidence high in front of every one of confidence
    medium, and those in front of every one of confidence low; within
    one confidence a result never stands behind one with a longer
    domain.  Sorting keeps exactly the elements it was given, and
    results of the same confidence and domain length stay in the order
    in which they were found. *)
Theorem sort_suggestions (l : list DomainCheckResult) :
  StronglySorted suggestionOrder (Mcp.sort Mcp.compareSuggestions l)
  /\ Permutation l (Mcp.sort Mcp.compareSuggestions l)
  /\ (forall k, filter (sameKey k) (Mcp.sort Mcp.compareSuggestions l)
                = filter (sameKey k) l)
  /\ (forall before a between b after,
        Mcp.sort Mcp.compareSuggestions l
        = before ++ a :: between ++ b :: after ->
        (confidence b = high -> confidence a = high)
        /\ (confidence b = medium -> confidence a <> low)
        /\ (confidence a = confidence b ->
            (String.length (domain a) <= String.length (domain b))%nat)).
Proof.
  destruct (sort_facts l) as (S & P & T).
  assert (O : StronglySorted suggestionOrder (Mcp.sort Mcp.compareSuggestions l))
    by (apply (StronglySorted_weaken leSuggestion); [apply leSuggestion_order|exact S]).
  split; [exact O|]. split; [exact P|]. split.
  - intros k.
    assert (K : forall x, filter (sameKey k) x = filter (sameRank k) x)
      by (intros x; apply filter_ext; intros r; symmetry; apply sameRank_sameKey).
    rewrite !K. apply T.
  - intros before a between b after E. rewrite E in O.
    assert (Oab : suggestionOrder a b).
    { clear E. induction before as [|x before IH]; cbn [app] in O.
      - inversion O as [|? ? _ F]; subst.
        apply (proj1 (Forall_forall _ _) F). apply in_or_app. right. now left.
      - inversion O; subst. now apply IH. }
    unfold suggestionOrder in Oab.
    destruct (confidence a), (confidence b);
      repeat split; intros; try discriminate; try contradiction; auto.
Qed.

(** ** The handler of tool calls *)

Lemma slice_from_0 {A} (l : list A) (k : Z) :
  (0 <= k)%Z -> slice l 0 k = firstn (Z.to_nat k) l.
Proof.
  intros K. unfold slice, relativeIndex.
  destruct (Z.ltb_spec 0 0) as [?|_]; [lia|].
  destruct (Z.ltb_spec k 0) as [?|_]; [lia|].
  replace (Z.to_nat (Z.min 0 (Z.of_nat (List.length l)))) with 0%nat by lia.
  cbn [skipn].
  destruct (Z.le_gt_cases k (Z.of_nat (List.length l))).
  - f_equal. lia.
  - rewrite !firstn_all2; [reflexivity|lia|lia].
Qed.

Lemma suggested_tlds_length (purpose : option string) :
  (5 <= List.length (getSuggestedTlds purpose) <= 35)%nat.
Proof.
  unfold getSuggestedTlds.
  repeat match goal with
         | |- context [if ?b then _ else _] => destruct b
         end; vm_compute; split;
    repeat first [apply le_n | apply le_S].
Qed.

Lemma first_five_tlds (purpose : option string) :
  List.length (slice (getSuggestedTlds purpose) 0 5) = 5%nat.
Proof.
  rewrite slice_from_0 by lia. rewrite length_firstn.
  pose proof (suggested_tlds_length purpose). lia.
Qed.

Lemma batch_of_three (fuel : nat) (world : World) (name : string)
    (tlds : list string) :
  (List.length tlds < fuel)%nat ->
  checkAlternativeTlds fuel world name (Some tlds)
    {| concurrency := Some 3%Z; batchDelay := None |}
  = Some (Ok ({| originalDomain := baseName name;
                 results := batchResults world name tlds |}, batchLog tlds)).
Proof.
  intros F.
  apply (@checkAlternativeTlds_returns fuel world name (Some tlds)
           {| concurrency := Some 3%Z; batchDelay := None |});
    [reflexivity|exact F].
Qed.

Lemma batch_default (fuel : nat) (world : World) (name : string)
    (tlds : list string) :
  (List.length tlds < fuel)%nat ->
  checkAlternativeTlds fuel world name (Some tlds) defaultOptions
  = Some (Ok ({| originalDomain := baseName name;
                 results := batchResults world name tlds |}, batchLog tlds)).
Proof.
  intros F.
  apply (@checkAlternativeTlds_returns fuel world name (Some tlds) defaultOptions);
    [reflexivity|exact F].
Qed.

Lemma suggestLoop_returns (fuel : nat) (env : Mcp.Env) (tlds : list string) :
  (List.length (slice tlds 0 5) < fuel)%nat ->
  forall names j allResults log,
    Mcp.suggestLoop fuel env tlds j names allResults log
    = Some (Ok (allResults ++ suggestResults env (slice tlds 0 5) j names,
                log ++ suggestLog (slice tlds 0 5) names)).
Proof.
  intros F. induction names as [|name names IH]; intros j allResults log.
  - cbn. now rewrite !app_nil_r.
  - cbn [Mcp.suggestLoop]. rewrite (batch_of_three fuel (env j) name _ F).
    rewrite IH. unfold resultsOf. cbn [results suggestResults suggestLog flat_map].
    now rewrite <- !app_assoc.
Qed.

Lemma batchResults_length (world : World) (name : string) (tlds : list string) :
  List.length (batchResults world name tlds) = List.length tlds.
Proof. apply mapFrom_length. Qed.


Lemma filter_length_split {A} (f : A -> bool) (l : list A) :
  (List.length (filter f l) + List.length (filter (fun x => negb (f x)) l)
   = List.length l)%nat.
Proof.
  induction l as [|x l IH]; cbn [filter]; [reflexivity|].
  destruct (f x); cbn [negb List.length]; lia.
Qed.

Lemma filter_partition {A} (f : A -> bool) (l : list A) :
  Permutation (filter f l ++ filter (fun x => negb (f x)) l) l.
Proof.
  induction l as [|x l IH]; cbn [filter]; [constructor|].
  destruct (f x); cbn [negb app].
  - now constructor.
  - apply Permutation_sym, Permutation_cons_app, Permutation_sym, IH.
Qed.

Lemma callTool_alternatives_value
    (fuel : nat) (env : Mcp.Env) (args : Mcp.ToolArgs) :
  truthy (Mcp.argName args) = true ->
  let tlds :=
    match Mcp.argTlds args with
    | Some tlds => tlds
    | None => getSuggestedTlds (Some (Mcp.orElse (Mcp.argCategory args) "general"))
    end in
  (List.length tlds < fuel)%nat ->
  exists summary log,
    Mcp.callTool fuel env "check_alternative_tlds" args
    = Some ({| Mcp.content := Mcp.Json (Mcp.AlternativesPayload summary);
               Mcp.isError := false |}, log)
    /\ Mcp.originalDomain summary = baseName (show (Mcp.argName args))
    /\ Mcp.totalChecked summary = List.length tlds
    /\ (Mcp.availableCount summary + Mcp.takenCount summary
        = Mcp.totalChecked summary)%nat
    /\ Mcp.availableCount summary = List.length (Mcp.available summary)
    /\ Mcp.takenCount summary = List.length (Mcp.taken summary)
    /\ Forall (fun r => available r = true) (Mcp.available summary)
    /\ Forall (fun r => available r = false) (Mcp.taken summary)
    /\ Permutation (Mcp.available summary ++ Mcp.taken summary)
         (batchResults (env O) (show (Mcp.argName args)) tlds).
Proof.
  intros N tlds F.
  unfold Mcp.callTool, Mcp.callToolBody.
  change (String.eqb "check_alternative_tlds" "check_domain") with false.
  change (String.eqb "check_alternative_tlds" "check_alternative_tlds") with true.
  cbv iota. rewrite N. cbn [negb]. fold tlds.
  rewrite (batch_default fuel (env O) _ tlds F).
  unfold resultsOf, originalDomainOf. cbn [results originalDomain].
  eexists. eexists. split; [reflexivity|].
  cbn [Mcp.originalDomain Mcp.totalChecked Mcp.availableCount Mcp.takenCount
         Mcp.available Mcp.taken].
  split; [reflexivity|].
  split; [apply batchResults_length|].
  split; [apply filter_length_split|].
  split; [reflexivity|]. split; [reflexivity|].
  split; [|split; [|apply filter_partition]].
  - apply Forall_forall. intros r I. apply filter_In in I. apply I.
  - apply Forall_forall. intros r I. apply filter_In in I.
    destruct I as [_ I]. unfold isAvailable in I. now destruct (available r).
Qed.

(** X22: [check_alternative_tlds] with a name answers with a summary,
    not an error, whatever the network does: it has checked every TLD of
    the list it was given (or of the category, "general" when none is
    named), each result is counted once, as available or as taken, and
    the two lists hold the results of that kind and together all
    results of the batch. *)
Theorem callTool_check_alternative_tlds
    (fuel : nat) (env : Mcp.Env) (args : Mcp.ToolArgs) :
  truthy (Mcp.argName args) = true ->
  let tlds :=
    match Mcp.argTlds args with
    | Some tlds => tlds
    | None => getSuggestedTlds (Some (Mcp.orElse (Mcp.argCategory args) "general"))
    end in
  (List.length tlds < fuel)%nat ->
  exists summary log,
    Mcp.callTool fuel env "check_alternative_tlds" args
    = Some ({| Mcp.content := Mcp.Json (Mcp.AlternativesPayload summary);
               Mcp.isError := false |}, log)
    /\ Mcp.originalDomain summary = baseName (show (Mcp.argName args))
    /\ Mcp.totalChecked summary = List.length tlds
    /\ (Mcp.availableCount summary + Mcp.takenCount summary
        = Mcp.totalChecked summary)%nat
    /\ Mcp.availableCount summary = List.length (Mcp.available summary)
    /\ Mcp.takenCount summary = List.length (Mcp.taken summary)
    /\ Forall (fun r => available r = true) (Mcp.available summary)
    /\ Forall (fun r => available r = false) (Mcp.taken summary)
    /\ Permutation (Mcp.available summary ++ Mcp.taken summary)
         (batchResults (env O) (show (Mcp.argName args)) tlds).
Proof. exact (callTool_alternatives_value fuel env args). Qed.

Lemma callTool_check_alternative_tlds_witness :
  exists summary log,
    Mcp.callTool 3 (fun _ _ => freeNet) "check_alternative_tlds"
      {| Mcp.argDomain := None; Mcp.argName := Some "acme";
         Mcp.argTlds := Some ["com"; "io"]; Mcp.argCategory := None;
         Mcp.argKeyword := None; Mcp.argIncludeVariations := None |}
    = Some ({| Mcp.content := Mcp.Json (Mcp.AlternativesPayload summary);
               Mcp.isError := false |}, log)
    /\ Mcp.originalDomain summary = "acme"
    /\ Mcp.totalChecked summary = 2%nat
    /\ (Mcp.availableCount summary + Mcp.takenCount summary
        = Mcp.totalChecked summary)%nat
    /\ Mcp.availableCount summary = List.length (Mcp.available summary)
    /\ Mcp.takenCount summary = List.length (Mcp.taken summary)
    /\ Forall (fun r => available r = true) (Mcp.available summary)
    /\ Forall (fun r => available r = false) (Mcp.taken summary)
    /\ Permutation (Mcp.available summary ++ Mcp.taken summary)
         (batchResults (fun _ => freeNet) "acme" ["com"; "io"]).
Proof.
  apply (callTool_check_alternative_tlds 3 (fun _ _ => freeNet)
           {| Mcp.argDomain := None; Mcp.argName := Some "acme";
              Mcp.argTlds := Some ["com"; "io"]; Mcp.argCategory := None;
              Mcp.argKeyword := None; Mcp.argIncludeVariations := None |}).
  - reflexivity.
  - simpl. lia.
Defined.






Lemma callToolBody_unknown (fuel : nat) (env : Mcp.Env) (name : string)
    (args : Mcp.ToolArgs) :
  ~ In name knownTools ->
  Mcp.callToolBody fuel env name args = Some (Throw ("Unknown tool: " ++ name)).
Proof.
  intros N. unfold Mcp.callToolBody.
  destruct (String.eqb_spec name "check_domain") as [->|_];
    [exfalso; apply N; cbn; tauto|].
  destruct (String.eqb_spec name "check_alternative_tlds") as [->|_];
    [exfalso; apply N; cbn; tauto|].
  destruct (String.eqb_spec name "suggest_domains") as [->|_];
    [exfalso; apply N; cbn; tauto|].
  destruct (String.eqb_spec name "list_tlds") as [->|_];
    [exfalso; apply N; cbn; tauto|].
  reflexivity.
Qed.

Lemma callTool_check_domain_value (fuel : nat) (env : Mcp.Env) (args : Mcp.ToolArgs) :
  Mcp.callTool fuel env "check_domain" args =
  if negb (truthy (Mcp.argDomain args)) then
    Some ({| Mcp.content := Mcp.Text "Error: Domain is required";
             Mcp.isError := true |}, [])
  else if includes dot (show (Mcp.argDomain args)) then
    Some ({| Mcp.content :=
               Mcp.Json (Mcp.CheckPayload
                           (verdict (env O O) (show (Mcp.argDomain args))));
             Mcp.isError := false |}, [])
  else
    Some ({| Mcp.content :=
               Mcp.Text ("Error: Invalid domain format: "
                         ++ show (Mcp.argDomain args)
                         ++ ". Expected format: name.tld");
             Mcp.isError := true |}, []).
Proof.
  unfold Mcp.callTool, Mcp.callToolBody.
  change (String.eqb "check_domain" "check_domain") with true. cbv iota.
  destruct (truthy (Mcp.argDomain args)); cbn [negb]; [|reflexivity].
  destruct (includes dot (show (Mcp.argDomain args))) eqn:D.
  - now rewrite (checkDomain_dot _ _ D).
  - unfold checkDomain. now rewrite (parseDomain_no_dot _ D).
Qed.

(** X24: the handler answers every call, and with an error in these
    cases only: the tool is not one of the four, the argument that the
    tool requires is missing or empty, or the domain handed to
    [check_domain] has no dot.  Failing DNS or WHOIS lookups never make
    a call an error. *)
Theorem callTool_error_iff
    (fuel : nat) (env : Mcp.Env) (name : string) (args : Mcp.ToolArgs) :
  (35 < fuel)%nat ->
  (forall tlds, Mcp.argTlds args = Some tlds -> (List.length tlds < fuel)%nat) ->
  exists response log,
    Mcp.callTool fuel env name args = Some (response, log)
    /\ (Mcp.isError response = true <->
        ~ In name knownTools
        \/ (name = "check_domain"
            /\ (truthy (Mcp.argDomain args) = false
                \/ includes dot (show (Mcp.argDomain args)) = false))
        \/ (name = "check_alternative_tlds" /\ truthy (Mcp.argName args) = false)
        \/ (name = "suggest_domains" /\ truthy (Mcp.argKeyword args) = false)).
Proof.
  intros F35 Ft.
  destruct (in_dec string_dec name knownTools) as [I|N].
  2:{ unfold Mcp.callTool. rewrite (callToolBody_unknown fuel env name args N).
      eexists. eexists. split; [reflexivity|]. cbn [Mcp.isError].
      split; [intros _; left; exact N|reflexivity]. }
  cbn [knownTools In] in I.
  destruct I as [<-|[<-|[<-|[<-|[]]]]].
  - rewrite callTool_check_domain_value.
    destruct (truthy (Mcp.argDomain args)) eqn:T; cbn [negb].
    + destruct (includes dot (show (Mcp.argDomain args))) eqn:D;
        eexists; eexists; (split; [reflexivity|]); cbn [Mcp.isError]; split;
        try tauto; try discriminate.
      intros [H|[[_ [H|H]]|[[H _]|[H _]]]]; try discriminate.
      exfalso. apply H. cbn. tauto.
    + eexists. eexists. split; [reflexivity|]. cbn [Mcp.isError]. tauto.
  - destruct (truthy (Mcp.argName args)) eqn:T.
    + assert (L : (List.length
                     match Mcp.argTlds args with
                     | Some tlds => tlds
                     | None => getSuggestedTlds
                                 (Some (Mcp.orElse (Mcp.argCategory args) "general"))
                     end < fuel)%nat).
      { destruct (Mcp.argTlds args) as [tlds|] eqn:E; [now apply Ft|].
        pose proof (suggested_tlds_length
                      (Some (Mcp.orElse (Mcp.argCategory args) "general"))). lia. }
      destruct (callTool_alternatives_value fuel env args T L)
        as (summary & log & C & _).
      rewrite C. eexists. eexists. split; [reflexivity|]. cbn [Mcp.isError].
      split; [discriminate|].
      intros [H|[[H _]|[[_ H]|[H _]]]]; try discriminate.
      exfalso. apply H. cbn. tauto.
    + unfold Mcp.callTool, Mcp.callToolBody.
      change (String.eqb "check_alternative_tlds" "check_domain") with false.
      change (String.eqb "check_alternative_tlds" "check_alternative_tlds") with true.
      cbv iota. rewrite T. cbn [negb].
      eexists. eexists. split; [reflexivity|]. cbn [Mcp.isError]. tauto.
  - destruct (truthy (Mcp.argKeyword args)) eqn:T.
    + unfold Mcp.callTool, Mcp.callToolBody.
      change (String.eqb "suggest_domains" "check_domain") with false.
      change (String.eqb "suggest_domains" "check_alternative_tlds") with false.
      change (String.eqb "suggest_domains" "suggest_domains") with true.
      cbv iota. rewrite T. cbn [negb].
      rewrite suggestLoop_returns
        by (rewrite first_five_tlds; lia).
      eexists. eexists. split; [reflexivity|]. cbn [Mcp.isError].
      split; [discriminate|].
      intros [H|[[H _]|[[H _]|[_ H]]]]; try discriminate.
      exfalso. apply H. cbn. tauto.
    + unfold Mcp.callTool, Mcp.callToolBody.
      change (String.eqb "suggest_domains" "check_domain") with false.
      change (String.eqb "suggest_domains" "check_alternative_tlds") with false.
      change (String.eqb "suggest_domains" "suggest_domains") with true.
      cbv iota. rewrite T. cbn [negb].
      eexists. eexists. split; [reflexivity|]. cbn [Mcp.isError]. tauto.
  - unfold Mcp.callTool, Mcp.callToolBody.
    change (String.eqb "list_tlds" "check_domain") with false.
    change (String.eqb "list_tlds" "check_alternative_tlds") with false.
    change (String.eqb "list_tlds" "suggest_domains") with false.
    change (String.eqb "list_tlds" "list_tlds") with true.
    cbv iota.
    eexists. eexists. split; [reflexivity|]. cbn [Mcp.isError].
    split; [discriminate|].
    intros [H|[[H _]|[[H _]|[H _]]]]; try discriminate.
    exfalso. apply H. cbn. tauto.
Qed.

Lemma callTool_error_iff_witness :
  exists response log,
    Mcp.callTool 36 (fun _ _ => downNet) "check_domain"
      {| Mcp.argDomain := Some "example.com"; Mcp.argName := None;
         Mcp.argTlds := None; Mcp.argCategory := None;
         Mcp.argKeyword := None; Mcp.argIncludeVariations := None |}
    = Some (response, log)
    /\ (Mcp.isError response = true <->
        ~ In "check_domain" knownTools
        \/ ("check_domain" = "check_domain"
            /\ (truthy (Some "example.com") = false
                \/ includes dot "example.com" = false))
        \/ ("check_domain" = "check_alternative_tlds" /\ truthy None = false)
        \/ ("check_domain" = "suggest_domains" /\ truthy None = false)).
Proof.
  apply (callTool_error_iff 36 (fun _ _ => downNet) "check_domain"
           {| Mcp.argDomain := Some "example.com"; Mcp.argName := None;
              Mcp.argTlds := None; Mcp.argCategory := None;
              Mcp.argKeyword := None; Mcp.argIncludeVariations := None |}).
  - lia.
  - discriminate.
Defined.

(** X25: the texts of the errors: "Error: Unknown tool: ..." for a tool
    that is not known, "Error: Domain is required" for [check_domain]
    without a domain, and the format error of [parseDomain] behind
    "Error: " for a domain without a dot; a domain with a dot gets the
    result of [checkDomain]. *)
Theorem callTool_error_texts
    (fuel : nat) (env : Mcp.Env) (name : string) (args : Mcp.ToolArgs) :
  (~ In name knownTools ->
   Mcp.callTool fuel env name args
   = Some ({| Mcp.content := Mcp.Text ("Error: Unknown tool: " ++ name);
              Mcp.isError := true |}, []))
  /\ (truthy (Mcp.argDomain args) = false ->
      Mcp.callTool fuel env "check_domain" args
      = Some ({| Mcp.content := Mcp.Text "Error: Domain is required";
                 Mcp.isError := true |}, []))
  /\ (forall domain,
        Mcp.argDomain args = Some domain -> domain <> EmptyString ->
        includes dot domain = false ->
        Mcp.callTool fuel env "check_domain" args
        = Some ({| Mcp.content :=
                     Mcp.Text ("Error: Invalid domain format: " ++ domain
                               ++ ". Expected format: name.tld");
                   Mcp.isError := true |}, []))
  /\ (forall domain,
        Mcp.argDomain args = Some domain ->
        includes dot domain = true ->
        exists result,
          checkDomain (env O O) domain = Ok result
          /\ Mcp.callTool fuel env "check_domain" args
             = Some ({| Mcp.content := Mcp.Json (Mcp.CheckPayload result);
                        Mcp.isError := false |}, [])).
Proof.
  split; [|split; [|split]].
  - intros N. unfold Mcp.callTool.
    now rewrite (callToolBody_unknown fuel env name args N).
  - intros T. rewrite callTool_check_domain_value. now rewrite T.
  - intros d E Ne D. rewrite callTool_check_domain_value. rewrite E.
    cbn [truthy show]. destruct (String.eqb_spec d EmptyString); [contradiction|].
    cbn [negb]. now rewrite D.
  - intros d E D. exists (verdict (env O O) d).
    split; [apply checkDomain_dot, D|].
    rewrite callTool_check_domain_value. rewrite E. cbn [truthy show].
    destruct (String.eqb_spec d EmptyString) as [->|_]; [discriminate D|].
    cbn [negb]. now rewrite D.
Qed.

Lemma callTool_error_texts_witness :
  Mcp.callTool 1 (fun _ _ => freeNet) "whois" Mcp.noArgs
  = Some ({| Mcp.content := Mcp.Text "Error: Unknown tool: whois";
             Mcp.isError := true |}, [])
  /\ Mcp.callTool 1 (fun _ _ => freeNet) "check_domain" Mcp.noArgs
     = Some ({| Mcp.content := Mcp.Text "Error: Domain is required";
                Mcp.isError := true |}, []).
Proof.
  split.
  - apply (callTool_error_texts 1 (fun _ _ => freeNet) "whois" Mcp.noArgs).
    cbn. intros [H|[H|[H|[H|[]]]]]; discriminate.
  - apply (callTool_error_texts 1 (fun _ _ => freeNet) "whois" Mcp.noArgs).
    reflexivity.
Defined.

(** * The command line *)

Lemma mainBody_multi (fuel : nat) (env : World) (values : Cli.Values)
    (domain : string) :
  multiTld values = true ->
  (List.length (Cli.chooseTlds values) < fuel)%nat ->
  let all := batchResults env domain (Cli.chooseTlds values) in
  let filteredResults := if Cli.availableOnly values then filter isAvailable all else all in
  Cli.mainBody fuel env values domain =
  if Cli.json values then
    Some (Ok ([Cli.BatchJson (baseName domain) filteredResults], None))
  else
    Some (Ok ([Cli.Checking (baseName domain); Cli.Rule]
              ++ (if (0 <? List.length (filter isAvailable filteredResults))%nat
                  then Cli.AvailableHeading
                       :: map Cli.Indented (filter isAvailable filteredResults)
                  else [])
              ++ (if negb (Cli.availableOnly values)
                     && (0 <? List.length
                                (filter (fun r => negb (isAvailable r)) filteredResults))%nat
                  then Cli.TakenHeading
                       :: map Cli.Indented
                            (filter (fun r => negb (isAvailable r)) filteredResults)
                  else [])
              ++ [Cli.RuleBelow;
                  Cli.Summary
                    (List.length (filter isAvailable filteredResults))
                    (List.length (filter (fun r => negb (isAvailable r)) filteredResults))
                    (List.length all)],
              None)).
Proof.
  intros M F all filteredResults. unfold Cli.mainBody.
  unfold multiTld in M. rewrite M.
  rewrite (batch_default fuel env domain _ F).
  reflexivity.
Qed.

Lemma mainBody_single (fuel : nat) (env : World) (values : Cli.Values)
    (domain : string) :
  multiTld values = false ->
  Cli.mainBody fuel env values domain =
  Some (result <- checkDomain (env O) domain ;;
        Ok ([if Cli.json values then Cli.ResultJson result else Cli.ResultLine result],
            Some (if isAvailable result then 0%Z else 1%Z))).
Proof.
  intros M. unfold Cli.mainBody. unfold multiTld in M. now rewrite M.
Qed.

(** X26: [main] always ends, with status 0 or 1.  The status is 0 in
    three cases only: help was asked for; a multi-TLD run (any of --alt,
    --tech, --country, --tlds) for a given name, whatever it found; a
    single check of a domain with a dot that came out available.  A
    missing argument, a domain without a dot and a single check that
    came out taken all end with status 1. *)
Theorem main_exit_status
    (fuel : nat) (env : World) (values : Cli.Values) (positionals : list string) :
  (List.length (Cli.chooseTlds values) < fuel)%nat ->
  exists printed status,
    Cli.main fuel env values positionals = Some (printed, status)
    /\ (status = 0%Z \/ status = 1%Z)
    /\ (status = 0%Z <->
        Cli.help values = true
        \/ (positionals <> [] /\ multiTld values = true)
        \/ (exists domain rest,
              positionals = domain :: rest
              /\ multiTld values = false
              /\ includes dot domain = true
              /\ available (verdict (env O) domain) = true)).
Proof.
  intros F. unfold Cli.main.
  destruct positionals as [|domain rest].
  - destruct (Cli.help values) eqn:H; eexists; eexists;
      (split; [reflexivity|]); (split; [auto|]); split; try tauto; try lia.
    intros [?|[[N _]|(d & r & E & _)]]; [discriminate|congruence|discriminate].
  - destruct (Cli.help values) eqn:H.
    { eexists. eexists. split; [reflexivity|]. split; [auto|]. tauto. }
    destruct (multiTld values) eqn:M.
    + rewrite (mainBody_multi fuel env values domain M F).
      destruct (Cli.json values); eexists; eexists;
        (split; [reflexivity|]); cbn [orDefault]; (split; [auto|]);
        (split; [intros _; right; left; split; [discriminate|reflexivity]|reflexivity]).
    + rewrite (mainBody_single fuel env values domain M).
      destruct (includes dot domain) eqn:D.
      * rewrite (checkDomain_dot _ _ D). cbn [bind orDefault]. unfold isAvailable.
        destruct (available (verdict (env O) domain)) eqn:A;
          eexists; eexists; (split; [reflexivity|]); (split; [auto|]); split;
          try lia.
        -- intros _. right. right. exists domain, rest. auto.
        -- intros [?|[[_ ?]|(d & r & E & _ & _ & A')]]; try discriminate.
           inversion E; subst. congruence.
      * unfold checkDomain. rewrite (parseDomain_no_dot _ D). cbn [bind].
        eexists. eexists. split; [reflexivity|]. split; [auto|]. split; [lia|].
        intros [?|[[_ ?]|(d & r & E & _ & D' & _)]]; try discriminate.
        inversion E; subst. congruence.
Qed.

Lemma main_exit_status_witness :
  exists printed status,
    Cli.main 17 (fun _ => liveNet) Cli.plain ["example.com"] = Some (printed, status)
    /\ (status = 0%Z \/ status = 1%Z)
    /\ (status = 0%Z <->
        Cli.help Cli.plain = true
        \/ (["example.com"] <> [] /\ multiTld Cli.plain = true)
        \/ (exists domain rest,
              ["example.com"] = domain :: rest
              /\ multiTld Cli.plain = false
              /\ includes dot domain = true
              /\ available (verdict liveNet domain) = true)).
Proof.
  apply (main_exit_status 17 (fun _ => liveNet) Cli.plain ["example.com"]).
  vm_compute. lia.
Defined.

Lemma filter_filter_neg {A} (f : A -> bool) (l : list A) :
  filter (fun x => negb (f x)) (filter f l) = [].
Proof.
  induction l as [|x l IH]; cbn [filter]; [reflexivity|].
  destruct (f x) eqn:E; [cbn [filter]; now rewrite E|exact IH].
Qed.

Lemma filter_idempotent {A} (f : A -> bool) (l : list A) :
  filter f (filter f l) = filter f l.
Proof.
  induction l as [|x l IH]; cbn [filter]; [reflexivity|].
  destruct (f x) eqn:E; [cbn [filter]; now rewrite E, IH|exact IH].
Qed.

(** X27: in a multi-TLD run with text output, the summary line counts
    the available results, the taken results that are shown and all
    results checked.  Without --available-only the first two add up to
    the third; with --available-only no taken domain is printed and the
    summary says "0 taken", however many of the checked domains were
    taken. *)
Theorem main_summary
    (fuel : nat) (env : World) (values : Cli.Values) (domain : string)
    (rest : list string) :
  multiTld values = true ->
  Cli.help values = false ->
  Cli.json values = false ->
  (List.length (Cli.chooseTlds values) < fuel)%nat ->
  let all := batchResults env domain (Cli.chooseTlds values) in
  exists printed nAvailable nTaken,
    Cli.main fuel env values (domain :: rest)
    = Some (printed ++ [Cli.Summary nAvailable nTaken (List.length all)], 0%Z)
    /\ List.length all = List.length (Cli.chooseTlds values)
    /\ nAvailable = List.length (filter isAvailable all)
    /\ (Cli.availableOnly values = false ->
        (nAvailable + nTaken = List.length all)%nat)
    /\ (Cli.availableOnly values = true ->
        nTaken = 0%nat
        /\ ~ In Cli.TakenHeading printed
        /\ forall r, In (Cli.Indented r) printed -> available r = true).
Proof.
  intros M H J F all. unfold Cli.main. rewrite H.
  rewrite (mainBody_multi fuel env values domain M F), J. fold all.
  cbn [orDefault].
  destruct (Cli.availableOnly values) eqn:AO; cbn [negb andb].
  - rewrite filter_idempotent, filter_filter_neg. cbn [List.length].
    exists ([Cli.Checking (baseName domain); Cli.Rule]
            ++ (if (0 <? List.length (filter isAvailable all))%nat
                then Cli.AvailableHeading :: map Cli.Indented (filter isAvailable all)
                else [])
            ++ [Cli.RuleBelow]).
    eexists. eexists. split.
    { rewrite <- !app_assoc. cbn [app]. reflexivity. }
    split; [apply batchResults_length|]. split; [reflexivity|].
    split; [discriminate|]. intros _. split; [reflexivity|]. split.
    + intros I. apply in_app_or in I. destruct I as [[I|[I|[]]]|I]; try discriminate.
      apply in_app_or in I. destruct I as [I|[I|[]]]; try discriminate.
      destruct (0 <? List.length (filter isAvailable all))%nat; [|destruct I].
      destruct I as [I|I]; [discriminate|].
      apply in_map_iff in I. destruct I as (x & E & _). discriminate.
    + intros r I. apply in_app_or in I. destruct I as [[I|[I|[]]]|I]; try discriminate.
      apply in_app_or in I. destruct I as [I|[I|[]]]; try discriminate.
      destruct (0 <? List.length (filter isAvailable all))%nat; [|destruct I].
      destruct I as [I|I]; [discriminate|].
      apply in_map_iff in I. destruct I as (x & E & Ix). inversion E; subst.
      apply filter_In in Ix. apply Ix.
  - exists ([Cli.Checking (baseName domain); Cli.Rule]
            ++ (if (0 <? List.length (filter isAvailable all))%nat
                then Cli.AvailableHeading :: map Cli.Indented (filter isAvailable all)
                else [])
            ++ (if (0 <? List.length (filter (fun r => negb (isAvailable r)) all))%nat
                then Cli.TakenHeading
                     :: map Cli.Indented (filter (fun r => negb (isAvailable r)) all)
                else [])
            ++ [Cli.RuleBelow]).
    eexists. eexists. split.
    { rewrite <- !app_assoc. cbn [app]. reflexivity. }
    split; [apply batchResults_length|]. split; [reflexivity|].
    split; [intros _; apply filter_length_split|discriminate].
Qed.

Lemma main_summary_witness :
  exists printed nAvailable nTaken,
    Cli.main 3 (fun _ => liveNet)
      {| Cli.alt := false; Cli.tech := false; Cli.country := false;
         Cli.tlds := Some "com, IO"; Cli.json := false;
         Cli.availableOnly := true; Cli.help := false |} ["acme"]
    = Some (printed ++ [Cli.Summary nAvailable nTaken 2], 0%Z)
    /\ 2%nat = 2%nat
    /\ nAvailable = 0%nat
    /\ (true = false -> (nAvailable + nTaken = 2)%nat)
    /\ (true = true ->
        nTaken = 0%nat
        /\ ~ In Cli.TakenHeading printed
        /\ forall r, In (Cli.Indented r) printed -> available r = true).
Proof.
  apply (main_summary 3 (fun _ => liveNet)
           {| Cli.alt := false; Cli.tech := false; Cli.country := false;
              Cli.tlds := Some "com, IO"; Cli.json := false;
              Cli.availableOnly := true; Cli.help := false |} "acme" []);
    try reflexivity.
  vm_compute. lia.
Defined.

Lemma split_length (sep : ascii) (s : string) :
  List.length (split sep s) = S (occ sep s).
Proof.
  induction s as [|c s IH]; cbn [split occ]; [reflexivity|].
  destruct (Ascii.eqb c sep); cbn [List.length]; [now rewrite IH|].
  destruct (split sep s); cbn [List.length] in *; lia.
Qed.

(** X28: a --tlds list gives one TLD per comma-separated piece, also
    for empty pieces: one more than there are commas.  Every TLD is
    lower-case and trimmed, in the same normal form that the engine
    gives a domain, although the command line trims first and
    lower-cases second. *)
Theorem parseTlds_entries (text : string) :
  List.length (Cli.parseTlds text) = S (occ ","%char text)
  /\ Forall (fun t => toLowerCase t = t /\ trim t = t /\ normalize t = t)
            (Cli.parseTlds text)
  /\ Cli.parseTlds text = map normalize (split ","%char text).
Proof.
  assert (C : forall t, toLowerCase (trim t) = normalize t).
  { intros t. unfold normalize, trim.
    now rewrite toLowerCase_trimEnd, toLowerCase_trimStart. }
  unfold Cli.parseTlds.
  split; [now rewrite length_map, split_length|]. split.
  - apply Forall_forall. intros t I. apply in_map_iff in I.
    destruct I as (x & <- & _). rewrite C.
    assert (L : toLowerCase (normalize x) = normalize x).
    { unfold normalize, trim.
      now rewrite toLowerCase_trimEnd, toLowerCase_trimStart, toLowerCase_idempotent. }
    assert (T : trim (normalize x) = normalize x)
      by (unfold normalize; apply trim_idempotent).
    split; [exact L|]. split; [exact T|apply normalize_idempotent].
  - apply map_ext, C.
Qed.

(** ** Patterns that never decide *)

Lemma matchHere_skip_lits (ic ml : bool) (a : string) (q : list atom) :
  forall p t,
    matchHere ic ml (lits a ++ q) p t = true ->
    exists t1 t2 p2, t = (t1 ++ t2)%string /\ matchHere ic ml q p2 t2 = true.
Proof.
  induction a as [|c a IH]; intros p t H.
  - exists EmptyString, t, p. split; [reflexivity|exact H].
  - cbn [lits app matchHere] in H.
    destruct t as [|x t]; [discriminate|].
    apply andb_prop in H as [_ H].
    destruct (IH _ _ H) as (t1 & t2 & p2 & -> & M).
    exists (String x t1), t2, p2. split; [reflexivity|exact M].
Qed.

Lemma matchHere_lits_only (ic ml ml' : bool) (w : string) (q : list atom) :
  forall p p' t,
    matchHere ic ml (lits w ++ q) p t = true ->
    matchHere ic ml' (lits w) p' t = true.
Proof.
  induction w as [|c w IH]; intros p p' t H; [reflexivity|].
  cbn [lits app matchHere] in *.
  destruct t as [|x t]; [discriminate|].
  apply andb_prop in H as [Hc H]. rewrite Hc. cbn [andb].
  exact (IH _ _ _ H).
Qed.

Lemma search_inv (r : regex) :
  forall s prev,
    search r prev s = true ->
    exists pre t p,
      s = (pre ++ t)%string
      /\ matchHere (ignoreCase r) (multiline r) (atoms r) p t = true.
Proof.
  induction s as [|x s IH]; intros prev H; cbn [search] in H.
  - rewrite orb_false_r in H. exists EmptyString, EmptyString, prev. auto.
  - apply orb_prop in H as [H|H].
    + exists EmptyString, (String x s), prev. auto.
    + destruct (IH _ H) as (pre & t & p & -> & M).
      exists (String x pre), t, p. auto.
Qed.

Lemma search_found (r : regex) (t : string) :
  (forall p, matchHere (ignoreCase r) (multiline r) (atoms r) p t = true) ->
  forall pre prev, search r prev (pre ++ t) = true.
Proof.
  intros M. induction pre as [|x pre IH]; intros prev.
  - cbn [append]. destruct t; cbn [search]; now rewrite M.
  - cbn [append search]. rewrite IH. apply orb_true_r.
Qed.

Lemma anchored_no_match_subsumed (text : string) :
  test (re_im ([Bol] ++ lits "% no match" ++ [Eol])) text = true ->
  test (re_i (lits "no match")) text = true.
Proof.
  unfold test. intros H.
  destruct (search_inv _ _ _ H) as (pre & t & p & -> & M).
  cbn [re_im atoms ignoreCase multiline] in M.
  change ([Bol] ++ lits "% no match" ++ [Eol])
    with (Bol :: (lits "% " ++ (lits "no match" ++ [Eol]))) in M.
  cbn [matchHere] in M. apply andb_prop in M as [_ M].
  destruct (matchHere_skip_lits _ _ _ _ _ _ M) as (t1 & t2 & p2 & -> & M2).
  rewrite <- append_assoc.
  apply search_found. intros p'.
  exact (matchHere_lits_only true true false "no match" [Eol] p2 p' t2 M2).
Qed.

Lemma domain_not_found_subsumed (text : string) :
  test (re_i (lits "domain not found")) text = true ->
  test (re_i (lits "not found")) text = true.
Proof.
  unfold test. intros H.
  destruct (search_inv _ _ _ H) as (pre & t & p & -> & M).
  cbn [re_i atoms ignoreCase multiline] in M.
  change (lits "domain not found") with (lits "domain " ++ (lits "not found" ++ []))
    in M.
  destruct (matchHere_skip_lits _ _ _ _ _ _ M) as (t1 & t2 & p2 & -> & M2).
  rewrite <- append_assoc.
  apply search_found. intros p'.
  exact (matchHere_lits_only true false false "not found" [] p2 p' t2 M2).
Qed.

(** X29: two of the ten available-patterns never decide anything:
    whatever [/domain not found/i] matches, [/not found/i] matches, and
    whatever the anchored [/^% no match$/im] matches, [/no match/i]
    matches; the classifier gives the same answer on every text without
    them. *)
Theorem availablePatterns_redundant (text : string) :
  some availablePatterns text = some availablePatternsCore text.
Proof.
  pose proof (anchored_no_match_subsumed text) as A.
  pose proof (domain_not_found_subsumed text) as D.
  unfold some, availablePatterns, availablePatternsCore. cbn [existsb].
  destruct (test (re_i (lits "no match")) text);
    destruct (test (re_i (lits "not found")) text);
    destruct (test (re_i (lits "domain not found")) text);
    destruct (test (re_im ([Bol] ++ lits "% no match" ++ [Eol])) text);
    cbn [orb]; try reflexivity;
    try (specialize (A eq_refl); discriminate);
    try (specialize (D eq_refl); discriminate);
    rewrite ?orb_false_r, ?orb_true_r; reflexivity.
Qed.

Lemma TsSource_checkDomain_hangs_witness :
  TsSource.checkDomain silentNet "example.com" = None.
Proof.
  apply (proj2 (TsSource_checkDomain_hangs silentNet "example.com")).
  split; [reflexivity|right; reflexivity].
Defined.

(** ** The pause that the TypeScript source does not make *)

Lemma TsSource_batchLoop_step (world : World) (name : string)
    (tlds : list string) (c : Z) (fuel : nat) (i : Z)
    (results : list DomainCheckResult) (log : list Event) :
  TsSource.batchLoop world name tlds c (S fuel) i results log =
  if (i <? Z.of_nat (List.length tlds))%Z then
    match TsSource.promiseAll
            (mapFrom (fun k tld => TsSource.checkDomain (world k) (name ++ "." ++ tld))
                     (List.length results) (slice tlds i (i + c))) with
    | None => None
    | Some (Throw m) => Some (Throw m)
    | Some (Ok batchResults) =>
        TsSource.batchLoop world name tlds c fuel (i + c)
          (results ++ batchResults) (log ++ [Window (slice tlds i (i + c))])
    end
  else Some (Ok (results, log)).
Proof. reflexivity. Qed.

(** One turn of the loop on a concrete TLD list: the test of the index
    and the slice are evaluated, the checks stay as they are. *)
Ltac ts_turn H :=
  rewrite TsSource_batchLoop_step in H;
  match type of H with
  | context [(?a <? ?b)%Z] =>
      let v := eval vm_compute in (a <? b)%Z in
      change (a <? b)%Z with v in H
  end;
  cbv iota in H;
  try match type of H with
      | context [slice ?l ?a ?b] =>
          let v := eval vm_compute in (slice l a b) in
          change (slice l a b) with v in H
      end.

(** C5: what the claim says is what the build does, and what the
    TypeScript source of the same function does not do.  For
    [checkAlternativeTlds("foo", [com, net, org, io, co, dev, app],
    {concurrency: 3})] every run of the TypeScript source that returns
    has gone through three windows, of three, three and one TLD, and has
    not paused once, where the claim has two pauses; the build, on the
    same network, pauses after the first and after the second window. *)
Theorem TsSource_seven_by_three_no_pause
    (fuel : nat) (world : World)
    (res : AlternativeTldResult) (log : list Event) :
  TsSource.checkAlternativeTlds fuel world "foo"
    (Some ["com"; "net"; "org"; "io"; "co"; "dev"; "app"]) (Some 3%Z)
  = Some (Ok (res, log)) ->
  log = [Window ["com"; "net"; "org"]; Window ["io"; "co"; "dev"]; Window ["app"]]
  /\ windowSizes log = [3; 3; 1]%nat
  /\ List.length (filter isSleep log) = 0%nat
  /\ List.length (filter isSleep log) <> 2%nat
  /\ exists res' log',
       checkAlternativeTlds (8 + fuel) world "foo"
         (Some ["com"; "net"; "org"; "io"; "co"; "dev"; "app"])
         {| concurrency := Some 3%Z; batchDelay := None |}
       = Some (Ok (res', log'))
       /\ log' = [Window ["com"; "net"; "org"]; Sleep 1500;
                  Window ["io"; "co"; "dev"]; Sleep 1500; Window ["app"]]
       /\ List.length (filter isSleep log') = 2%nat.
Proof.
  intros H.
  assert (L : log = [Window ["com"; "net"; "org"]; Window ["io"; "co"; "dev"];
                     Window ["app"]]).
  { unfold TsSource.checkAlternativeTlds in H.
    change (includes dot "foo") with false in H. cbn [orDefault] in H.
    cbv iota in H.
    destruct (TsSource.batchLoop world "foo" _ 3 fuel 0 [] []) as [[[r l]|m]|] eqn:B;
      try discriminate.
    inversion H; subst; clear H.
    destruct fuel as [|fuel]; [discriminate|]. ts_turn B.
    destruct (TsSource.promiseAll _) as [[b1|?]|] in B; try discriminate.
    destruct fuel as [|fuel]; [discriminate|]. ts_turn B.
    destruct (TsSource.promiseAll _) as [[b2|?]|] in B; try discriminate.
    destruct fuel as [|fuel]; [discriminate|]. ts_turn B.
    destruct (TsSource.promiseAll _) as [[b3|?]|] in B; try discriminate.
    destruct fuel as [|fuel]; [discriminate|]. ts_turn B.
    inversion B. reflexivity. }
  subst log.
  split; [reflexivity|]. split; [reflexivity|]. split; [reflexivity|].
  split; [discriminate|].
  eexists. eexists. split.
  - apply (@checkAlternativeTlds_returns (8 + fuel) world "foo"
             (Some ["com"; "net"; "org"; "io"; "co"; "dev"; "app"])
             {| concurrency := Some 3%Z; batchDelay := None |});
      [reflexivity|cbn [orDefault List.length]; lia].
  - split; reflexivity.
Qed.

Lemma TsSource_seven_by_three_no_pause_witness :
  [Window ["com"; "net"; "org"]; Window ["io"; "co"; "dev"]; Window ["app"]]
  = [Window ["com"; "net"; "org"]; Window ["io"; "co"; "dev"]; Window ["app"]]
  /\ windowSizes
       [Window ["com"; "net"; "org"]; Window ["io"; "co"; "dev"]; Window ["app"]]
     = [3; 3; 1]%nat
  /\ List.length
       (filter isSleep
          [Window ["com"; "net"; "org"]; Window ["io"; "co"; "dev"]; Window ["app"]])
     = 0%nat
  /\ List.length
       (filter isSleep
          [Window ["com"; "net"; "org"]; Window ["io"; "co"; "dev"]; Window ["app"]])
     <> 2%nat
  /\ exists res' log',
       checkAlternativeTlds 16 (fun _ => freeNet) "foo"
         (Some ["com"; "net"; "org"; "io"; "co"; "dev"; "app"])
         {| concurrency := Some 3%Z; batchDelay := None |}
       = Some (Ok (res', log'))
       /\ log' = [Window ["com"; "net"; "org"]; Sleep 1500;
                  Window ["io"; "co"; "dev"]; Sleep 1500; Window ["app"]]
       /\ List.length (filter isSleep log') = 2%nat.
Proof.
  apply (TsSource_seven_by_three_no_pause 8 (fun _ => freeNet)
           {| originalDomain := "foo";
              results := mapFrom (fun _ t => verdict freeNet ("foo" ++ "." ++ t)) 0
                           ["com"; "net"; "org"; "io"; "co"; "dev"; "app"] |}).
  vm_compute. reflexivity.
Defined.
